(** * NLT reading proxy: the in-memory cache and the fetch-on-miss path

    A shallow embedding of [src/index.ts].  The module-level [cache]
    (a JavaScript [Map<string, CacheEntry>]) is the mutable state of a
    small state-and-exception monad; the handlers are written in that
    monad in the order of the source statements.

    Modelling conventions.
    - [Date.now()] yields integer milliseconds; instants are [Z].  A
      synchronous stretch of code observes one instant, passed as [now].
      The [/reading] handler suspends once (the [await] on the upstream
      call), so it takes a second instant, [later], for the code that
      runs after the suspension.  Nothing is assumed about the order of
      the two: the wall clock may be adjusted.
    - The [Map] is a [gmap]; its iteration order (insertion order in
      JavaScript) is not modelled, so the list of [cache.entries()] is
      meaningful up to permutation.
    - A handler runs without interleaving with other handlers.
    - Console output is not modelled.
    - Strings stand for JavaScript strings whose code units are below
      256.
    - Of the platform, [Date.prototype.toISOString] follows ECMAScript
      and the [Headers] of a [Response] follow the Fetch standard; the
      wording of the [TypeError] that [Headers] throws is a parameter,
      [header_error]. *)

From Stdlib Require Import ZArith Lia Ascii String.
From stdpp Require Import base strings gmap list pretty.

Local Open Scope Z_scope.

(** ** Data model *)

(** [interface CacheEntry] (lines 5-9). *)
Record CacheEntry := mkEntry {
  data : string;
  timestamp : Z;
  date : string
}.

(** [const CACHE_TTL_MS = 60 * 60 * 1000] (line 12). *)
Definition CACHE_TTL_MS : Z := 60 * 60 * 1000.

(** A value that a JavaScript [throw] (or a rejected promise) carries:
    an [Error] object with its [message], or anything else. *)
Inductive Thrown :=
| JsError (message : string)
| JsOther.

(** A parsed URL: the part before the query and the ordered list of
    query parameters ([URLSearchParams]). *)
Record Url := mkUrl {
  href : string;
  searchParams : list (string * string)
}.

(** [URLSearchParams.prototype.get]: the first value under the name, or
    [null]. *)
Fixpoint params_get (name : string) (ps : list (string * string)) : option string :=
  match ps with
  | [] => None
  | (k, v) :: ps' => if decide (k = name) then Some v else params_get name ps'
  end.

(** [URLSearchParams.prototype.set]: overwrite the first occurrence and
    drop the later ones, or append. *)
Fixpoint params_set (name value : string) (ps : list (string * string))
  : list (string * string) :=
  match ps with
  | [] => [(name, value)]
  | (k, v) :: ps' =>
      if decide (k = name)
      then (name, value) :: filter (λ kv, kv.1 ≠ name) ps'
      else (k, v) :: params_set name value ps'
  end.

(** What the upstream service sent back: the fields of the Fetch
    [Response] that the program reads. *)
Record UpstreamResponse := mkUpstream {
  up_status : Z;
  up_statusText : string;
  up_text : string
}.

(** [Response.ok]: the status is in the range 200-299. *)
Definition up_ok (r : UpstreamResponse) : bool :=
  (200 <=? up_status r) && (up_status r <=? 299).

(** The outcome of the platform's [fetch]: a response, whatever its
    status, or a rejection (no response at all). *)
Inductive FetchOutcome :=
| Responded (r : UpstreamResponse)
| Rejected (t : Thrown).

(** ** The state and exception monad *)

(** The process state: the global [cache] and, as a ghost field, the
    outbound requests issued so far (most recent last). *)
Record World := mkWorld {
  cache : gmap string CacheEntry;
  outbound : list Url
}.

Inductive Outcome (A : Type) :=
| Returned (a : A)
| Threw (t : Thrown).
Arguments Returned {A} a.
Arguments Threw {A} t.

Definition M (A : Type) : Type := World → Outcome A * World.

Definition ret {A} (a : A) : M A := λ w, (Returned a, w).

Definition bind {A B} (m : M A) (f : A → M B) : M B :=
  λ w, match m w with
       | (Returned a, w') => f a w'
       | (Threw t, w') => (Threw t, w')
       end.

Definition throw {A} (t : Thrown) : M A := λ w, (Threw t, w).

(** [try { body } catch (error) { handler }]. *)
Definition try_catch {A} (body : M A) (handler : Thrown → M A) : M A :=
  λ w, match body w with
       | (Returned a, w') => (Returned a, w')
       | (Threw t, w') => handler t w'
       end.

Declare Scope js_scope.
Delimit Scope js_scope with js.
Notation "'let*' x := m 'in' k" := (bind m (λ x, k))
  (at level 10, x name, m at level 100, k at level 200) : js_scope.
Notation "'run' m 'then' k" := (bind m (λ _, k))
  (at level 10, m at level 100, k at level 200) : js_scope.
Local Open Scope js_scope.

(** The [Map] methods the program calls on [cache]. *)
Definition cache_get (key : string) : M (option CacheEntry) :=
  λ w, (Returned (cache w !! key), w).

Definition cache_set (key : string) (e : CacheEntry) : M unit :=
  λ w, (Returned (), mkWorld (<[key := e]> (cache w)) (outbound w)).

Definition cache_delete (key : string) : M unit :=
  λ w, (Returned (), mkWorld (delete key (cache w)) (outbound w)).

Definition cache_clear : M unit :=
  λ w, (Returned (), mkWorld ∅ (outbound w)).

Definition cache_size : M nat :=
  λ w, (Returned (size (cache w)), w).

Definition cache_entries : M (list (string * CacheEntry)) :=
  λ w, (Returned (map_to_list (cache w)), w).

(** ** Cache store *)

(** [getCachedReading] (lines 41-54). *)
Definition getCachedReading (now : Z) (date : string) : M (option CacheEntry) :=
  let key := date in
  let* entry := cache_get key in
  match entry with
  | None => ret None
  | Some entry =>
      if now - timestamp entry >? CACHE_TTL_MS
      then (run cache_delete key then ret None)
      else ret (Some entry)
  end.

(** [setCachedReading] (lines 56-63). *)
Definition setCachedReading (now : Z) (date : string) (data : string) : M unit :=
  let key := date in
  cache_set key {| data := data; timestamp := now; date := date |}.

(** ** Dates *)

(** One decimal digit, the last of [n]. *)
Definition digit (n : Z) : ascii :=
  ascii_of_nat (48 + Z.to_nat (n mod 10)).

(** [n] in decimal on exactly [width] digits, zero padded (the low
    [width] digits of [n]). *)
Fixpoint pad (width : nat) (n : Z) : string :=
  match width with
  | O => ""
  | S width' => pad width' (n / 10) +:+ String (digit n) ""
  end.

Definition msPerDay : Z := 86400000.

(** The civil date (year, month 1-12, day 1-31) of a day number counted
    from 1970-01-01, in the proleptic Gregorian calendar: ECMAScript's
    [YearFromTime], [MonthFromTime] and [DateFromTime], computed in
    closed form over 400-year eras that start on 1 March. *)
Definition civil_from_days (day : Z) : Z * Z * Z :=
  let z := day + 719468 in
  let era := z / 146097 in
  let doe := z - era * 146097 in
  let yoe := (doe - doe / 1460 + doe / 36524 - doe / 146096) / 365 in
  let doy := doe - (365 * yoe + yoe / 4 - yoe / 100) in
  let mp := (5 * doy + 2) / 153 in
  let d := doy - (153 * mp + 2) / 5 + 1 in
  let m := if mp <? 10 then mp + 3 else mp - 9 in
  let y := yoe + era * 400 + (if m <=? 2 then 1 else 0) in
  (y, m, d).

(** The year field of [Date.prototype.toISOString]: four digits for the
    years 0 to 9999, otherwise a sign and six digits. *)
Definition iso_year (y : Z) : string :=
  if (0 <=? y) && (y <=? 9999) then pad 4 y
  else (if y <? 0 then "-" else "+") +:+ pad 6 (Z.abs y).

Definition iso_date (t : Z) : string :=
  let '(y, m, d) := civil_from_days (t / msPerDay) in
  iso_year y +:+ "-" +:+ pad 2 m +:+ "-" +:+ pad 2 d.

Definition iso_time (t : Z) : string :=
  let ms := t mod msPerDay in
  pad 2 (ms / 3600000) +:+ ":" +:+ pad 2 (ms / 60000 mod 60) +:+ ":"
    +:+ pad 2 (ms / 1000 mod 60) +:+ "." +:+ pad 3 (ms mod 1000).

(** [Date.prototype.toISOString] of the instant [t]. *)
Definition toISOString (t : Z) : string :=
  iso_date t +:+ "T" +:+ iso_time t +:+ "Z".

(** [s.split(sep)[0]] for a one-character separator: the part of [s]
    before the first [sep], all of [s] when there is none. *)
Fixpoint split_head (sep : ascii) (s : string) : string :=
  match s with
  | EmptyString => ""
  | String c s' => if decide (c = sep) then "" else String c (split_head sep s')
  end.

(** [getTodayDate] (lines 22-24); [now] is the instant [new Date()]
    captures. *)
Definition getTodayDate (now : Z) : string :=
  split_head "T" (toISOString now).

(** ** HTTP values *)

#[local] Unset Elimination Schemes.
Inductive Json :=
| JNum (n : Z)
| JStr (s : string)
| JArr (items : list Json)
| JObj (fields : list (string * Json)).
#[local] Set Elimination Schemes.

(** A plain object used as a string dictionary (the header bags). *)
Definition Headers := list (string * string).

(** Assigning one property: an existing name keeps its place. *)
Fixpoint obj_set (k v : string) (o : Headers) : Headers :=
  match o with
  | [] => [(k, v)]
  | (k', v') :: o' =>
      if decide (k' = k) then (k, v) :: o' else (k', v') :: obj_set k v o'
  end.

(** [{ ...a, ...b }]. *)
Definition spread (a b : Headers) : Headers :=
  foldl (λ o kv, obj_set kv.1 kv.2 o) a b.

Inductive Body :=
| BodyNull
| BodyText (s : string)
| BodyJson (j : Json).

Record Response := mkResponse {
  status : Z;
  headers : Headers;
  body : Body
}.

(** HTTP whitespace: tab, line feed, carriage return and space. *)
Definition http_whitespace (c : ascii) : bool :=
  let n := N_of_ascii c in
  ((n =? 9) || (n =? 10) || (n =? 13) || (n =? 32))%N.

(** A character that a header value must not hold: NUL, line feed or
    carriage return. *)
Definition forbidden_in_value (c : ascii) : bool :=
  let n := N_of_ascii c in
  ((n =? 0) || (n =? 10) || (n =? 13))%N.

Fixpoint trim_start (s : string) : string :=
  match s with
  | EmptyString => ""
  | String c s' => if http_whitespace c then trim_start s' else s
  end.

Definition trim_end (s : string) : string :=
  String.rev (trim_start (String.rev s)).

(** A header value with its leading and trailing HTTP whitespace
    removed. *)
Definition normalize_value (v : string) : string :=
  trim_end (trim_start v).

Fixpoint value_allowed (v : string) : bool :=
  match v with
  | EmptyString => true
  | String c v' => negb (forbidden_in_value c) && value_allowed v'
  end.

(** What the platform's [Headers] makes of a value given to it: the
    normalized value, or nothing when that value is not allowed.
    Modelled on the Fetch standard ("normalize" a value, then the
    definition of a header value); strings stand for JavaScript strings
    whose code units are below 256. *)
Definition header_value (v : string) : option string :=
  if value_allowed (normalize_value v) then Some (normalize_value v) else None.

(** Filling a [Headers] object from an init bag, entry by entry, in
    order: a value that is not allowed makes the platform throw a
    [TypeError], whose message, [header_error name value], is the
    platform's.  (The names in the bags of this program are constants,
    all valid header names.) *)
Fixpoint Headers_fill (header_error : string → string → string) (init : Headers)
  : M Headers :=
  match init with
  | [] => ret []
  | (name, value) :: init' =>
      match header_value value with
      | Some value' =>
          let* rest := Headers_fill header_error init' in
          ret ((name, value') :: rest)
      | None => throw (JsError (header_error name value))
      end
  end.

(** [new Response(body, { headers })]: the headers are filled from the
    bag, which may throw; the status defaults to 200. *)
Definition new_Response (header_error : string → string → string)
    (b : string) (h : Headers) : M Response :=
  let* hs := Headers_fill header_error h in
  ret (mkResponse 200 hs (BodyText b)).

(** [Response.json(value, { status, headers })]; the bags this program
    passes are the constant CORS headers, which the filling of the
    [Headers] object leaves as they are. *)
Definition Response_json (j : Json) (st : Z) (h : Headers) : Response :=
  mkResponse st h (BodyJson j).

(** The request as the handler reads it: [req.method], and [pathname]
    and [searchParams] of [new URL(req.url)]. *)
Record Request := mkRequest {
  method : string;
  pathname : string;
  query : list (string * string)
}.

(** [corsHeaders] (lines 66-70). *)
Definition corsHeaders : Headers :=
  [("Access-Control-Allow-Origin", "*");
   ("Access-Control-Allow-Methods", "GET, POST, PUT, DELETE, OPTIONS");
   ("Access-Control-Allow-Headers", "*")].

(** [addCorsHeaders] (lines 72-77). *)
Definition addCorsHeaders (h : Headers) : Headers :=
  spread corsHeaders h.

(** [a || b] on a possibly-null string: [null] and the empty string are
    falsy. *)
Definition or_else (a : option string) (b : string) : string :=
  match a with
  | Some s => if decide (s = "") then b else s
  | None => b
  end.

(** [Math.round(a / b)] for integers [a] and [b > 0]: the nearest
    integer to the quotient, a tie going up.  (The double-precision
    quotient rounds to the same integer as the exact one as long as
    [|a| < 2^53].) *)
Definition Math_round_div (a b : Z) : Z := (2 * a + b) / (2 * b).

(** The object built for one cache entry by the callback of the
    [/cache/stats] handler (lines 145-149). *)
Definition stats_entry (now : Z) (ke : string * CacheEntry) : Json :=
  let '(key, entry) := ke in
  JObj [("key", JStr key);
        ("date", JStr (date entry));
        ("age", JStr (pretty (Math_round_div (now - timestamp entry) 1000) +:+ "s"))].

(** The statistics object of the [/cache/stats] handler (lines 145-156):
    [entries] is computed first, then [cache.size] is read. *)
Definition cache_stats (now : Z) : M Json :=
  let* es := cache_entries in
  let entries := stats_entry now <$> es in
  let* n := cache_size in
  ret (JObj [("size", JNum (Z.of_nat n));
             ("ttlMs", JNum CACHE_TTL_MS);
             ("entries", JArr entries)]).

(** ** The server *)

Section Server.

(** The message of the [TypeError] that the platform's [Headers] throws
    for the header [name] given the value [value]. *)
Variable header_error : string → string → string.

(** [process.env.NLT_API_KEY]; the start-up check (lines 17-20) leaves
    the process only when it is a non-empty string. *)
Variable API_KEY : string.

(** The upstream service as the platform's [fetch] presents it. *)
Variable upstream : Url → FetchOutcome.

(** [await fetch(url)]: one outbound request, recorded; a rejection is
    thrown at the [await]. *)
Definition fetch (url : Url) : M UpstreamResponse :=
  λ w, let w' := mkWorld (cache w) (outbound w ++ [url]) in
       match upstream url with
       | Responded r => (Returned r, w')
       | Rejected t => (Threw t, w')
       end.

(** The URL that [fetchReading] builds (lines 27-30). *)
Definition reading_url (date : string) : Url :=
  let url := mkUrl "https://api.nlt.to/api/reading" [] in
  let url := mkUrl (href url) (params_set "plan" "oycb" (searchParams url)) in
  let url := mkUrl (href url) (params_set "date" date (searchParams url)) in
  mkUrl (href url) (params_set "key" API_KEY (searchParams url)).

(** The message of the error thrown at line 35. *)
Definition upstream_error_message (r : UpstreamResponse) : string :=
  "NLT API error: " +:+ pretty (up_status r) +:+ " " +:+ up_statusText r.

(** [fetchReading] (lines 26-39). *)
Definition fetchReading (date : string) : M string :=
  let url := reading_url date in
  let* response := fetch url in
  if negb (up_ok response)
  then throw (JsError (upstream_error_message response))
  else ret (up_text response).


(** The body of the [/reading] branch once the date is resolved: the
    [try]/[catch] statement of lines 104-140.  The source's local [date]
    is [date'] here, the name [date] being the field of [CacheEntry]. *)
Definition reading_handler (now later : Z) (date' : string) : M Response :=
  try_catch
    (let* cached := getCachedReading now date' in
     match cached with
     | Some cached =>
         new_Response header_error (data cached)
           (addCorsHeaders
              [("Content-Type", "text/html; charset=utf-8");
               ("X-Cache", "HIT");
               ("X-Cache-Date", date cached)])
     | None =>
         let* reading := fetchReading date' in
         run setCachedReading later date' reading then
         new_Response header_error reading
           (addCorsHeaders
              [("Content-Type", "text/html; charset=utf-8");
               ("X-Cache", "MISS");
               ("X-Cache-Date", date')])
     end)
    (λ error,
       ret (Response_json
              (JObj [("error",
                      JStr (match error with
                            | JsError message => message
                            | JsOther => "Unknown error"
                            end))])
              500 (addCorsHeaders []))).

(** The date a [/reading] request is about (line 102). *)
Definition resolved_date (now : Z) (req : Request) : string :=
  or_else (params_get "date" (query req)) (getTodayDate now).

(** The handler passed to [serve] (lines 81-174).  [now] is the instant
    of the synchronous code up to the [await] on [fetchReading], [later]
    the instant of the code after it. *)
Definition server_fetch (now later : Z) (req : Request) : M Response :=
  if decide (method req = "OPTIONS") then
    ret (mkResponse 204 corsHeaders BodyNull)
  else if decide (pathname req = "/health") then
    let* n := cache_size in
    ret (Response_json
           (JObj [("status", JStr "ok"); ("cacheSize", JNum (Z.of_nat n))])
           200 (addCorsHeaders []))
  else if decide (pathname req = "/reading") then
    let date' := resolved_date now req in
    reading_handler now later date'
  else if decide (pathname req = "/cache/stats") then
    let* stats := cache_stats now in
    ret (Response_json stats 200 (addCorsHeaders []))
  else if decide (pathname req = "/cache/clear" ∧ method req = "POST") then
    run cache_clear then
    ret (Response_json (JObj [("message", JStr "Cache cleared")])
           200 (addCorsHeaders []))
  else
    ret (Response_json (JObj [("error", JStr "Not found")])
           404 (addCorsHeaders [])).

End Server.

(** The four operations of the cache store, for statements that range
    over all of them: a lookup, a write, [cache.clear()] and the
    statistics snapshot. *)
Inductive StoreOp :=
| OpGet (key : string)
| OpPut (key data : string)
| OpClear
| OpStats.

Definition run_op (now : Z) (op : StoreOp) : M unit :=
  match op with
  | OpGet key => run getCachedReading now key then ret ()
  | OpPut key data => setCachedReading now key data
  | OpClear => cache_clear
  | OpStats => run cache_stats now then ret ()
  end.

(** [sub] occurs in [s]. *)
Definition contains (sub s : string) : Prop :=
  ∃ pre post, s = pre +:+ sub +:+ post.

(** An entry is expired at the instant [now] (the test of line 48). *)
Definition expired (now : Z) (e : CacheEntry) : Prop :=
  now - timestamp e > CACHE_TTL_MS.

#[global] Instance expired_dec now e : Decision (expired now e) :=
  decide (now - timestamp e > CACHE_TTL_MS).

(** The sample store of the examples: one entry written at instant 0. *)
Definition sample_entry : CacheEntry :=
  {| data := "<html>reading</html>"; timestamp := 0; date := "2025-06-15" |}.

Definition sample_world : World :=
  {| cache := {[ "2025-06-15" := sample_entry ]}; outbound := [] |}.

(** Sample upstream services: one that always answers 503, one that
    always answers 200 with the sample body. *)
Definition unavailable : UpstreamResponse :=
  {| up_status := 503; up_statusText := "Service Unavailable"; up_text := "try later" |}.

Definition upstream_503 : Url → FetchOutcome := λ _, Responded unavailable.

Definition reading_200 : UpstreamResponse :=
  {| up_status := 200; up_statusText := "OK"; up_text := "<html>reading</html>" |}.

Definition upstream_200 : Url → FetchOutcome := λ _, Responded reading_200.

(** The world after one more outbound request. *)
Definition requested (url : Url) (w : World) : World :=
  {| cache := cache w; outbound := outbound w ++ [url] |}.

(** The body of the error response of the [/reading] branch. *)
Definition error_body (msg : string) : Body :=
  BodyJson (JObj [("error", JStr msg)]).

(** The sentence "a failed fetch on a cache miss leaves the store
    unchanged", as a statement about the handler. *)
Definition failed_miss_leaves_store_unchanged : Prop :=
  ∀ (header_error : string → string → string) (API_KEY : string)
    (upstream : Url → FetchOutcome) (now later : Z)
    (req : Request) (w : World) (r : UpstreamResponse),
    method req ≠ "OPTIONS" → pathname req = "/reading" →
    (getCachedReading now (resolved_date now req) w).1 = Returned None →
    upstream (reading_url API_KEY (resolved_date now req)) = Responded r →
    up_ok r = false →
    ∃ resp w' msg,
      server_fetch header_error API_KEY upstream now later req w = (Returned resp, w')
      ∧ status resp = 500
      ∧ body resp = error_body msg
      ∧ contains (pretty (up_status r)) msg
      ∧ cache w' = cache w.

(** A request for the reading of the sample date. *)
Definition sample_request : Request :=
  {| method := "GET"; pathname := "/reading"; query := [("date", "2025-06-15")] |}.

Definition stats_request : Request :=
  {| method := "GET"; pathname := "/cache/stats"; query := [] |}.

Definition clear_request : Request :=
  {| method := "POST"; pathname := "/cache/clear"; query := [] |}.

(** The character [c] does not occur in [s]. *)
Fixpoint no_char (c : ascii) (s : string) : Prop :=
  match s with
  | EmptyString => True
  | String x s' => x ≠ c ∧ no_char c s'
  end.

(** The day number, counted from 1970-01-01, of a civil date: the
    inverse of [civil_from_days], by the same 400-year eras. *)
Definition days_from_civil (y m d : Z) : Z :=
  let y' := if m <=? 2 then y - 1 else y in
  let era := y' / 400 in
  let yoe := y' - era * 400 in
  let mp := if 2 <? m then m - 3 else m + 9 in
  let doy := (153 * mp + 2) / 5 + d - 1 in
  let doe := yoe * 365 + yoe / 4 - yoe / 100 + doy in
  era * 146097 + doe - 719468.

(** Two [/reading] requests: one with an empty [date] parameter, one
    with none. *)
Definition empty_date_request : Request :=
  {| method := "GET"; pathname := "/reading"; query := [("date", "")] |}.

Definition no_date_request : Request :=
  {| method := "GET"; pathname := "/reading"; query := [] |}.

(** Reading a property of a plain object: the value under the name, if
    any.  ([obj_set] keeps names unique, so the first match is the
    property.) *)
Fixpoint obj_get (k : string) (o : Headers) : option string :=
  match o with
  | [] => None
  | (k', v) :: o' => if decide (k' = k) then Some v else obj_get k o'
  end.

(** The names of the properties of a plain object, in order. *)
Definition obj_keys (o : Headers) : list string := o.*1.

(** The response of the [/reading] branch when its construction
    succeeds (lines 110-116 and 127-133): [x_cache] is "HIT" or "MISS",
    [x_cache_date] the date as the [Headers] object holds it. *)
Definition reading_response (x_cache body x_cache_date : string) : Response :=
  mkResponse 200
    (addCorsHeaders
       [("Content-Type", "text/html; charset=utf-8");
        ("X-Cache", x_cache);
        ("X-Cache-Date", x_cache_date)])
    (BodyText body).

Definition hit_response (cached : CacheEntry) (x_cache_date : string) : Response :=
  reading_response "HIT" (data cached) x_cache_date.

Definition miss_response (x_cache_date reading : string) : Response :=
  reading_response "MISS" reading x_cache_date.

(** [error instanceof Error ? error.message : "Unknown error"]
    (line 137). *)
Definition thrown_message (error : Thrown) : string :=
  match error with
  | JsError message => message
  | JsOther => "Unknown error"
  end.

Definition error_response (msg : string) : Response :=
  Response_json (JObj [("error", JStr msg)]) 500 (addCorsHeaders []).

(** What the [/reading] branch answers once it builds its response for
    the date [d]: the response itself when the platform takes [d] as a
    header value, and otherwise the 500 that the [catch] makes of the
    [TypeError]. *)
Definition reading_answer (header_error : string → string → string)
    (x_cache body d : string) : Response :=
  match header_value d with
  | Some v => reading_response x_cache body v
  | None => error_response (header_error "X-Cache-Date" d)
  end.

(** The answers of the other branches: lines 86-89, 94-97, 164-167 and
    170-173. *)
Definition preflight_response : Response :=
  mkResponse 204 corsHeaders BodyNull.

Definition health_response (n : nat) : Response :=
  Response_json (JObj [("status", JStr "ok"); ("cacheSize", JNum (Z.of_nat n))])
    200 (addCorsHeaders []).

Definition cleared_response : Response :=
  Response_json (JObj [("message", JStr "Cache cleared")]) 200 (addCorsHeaders []).

Definition not_found_response : Response :=
  Response_json (JObj [("error", JStr "Not found")]) 404 (addCorsHeaders []).

(** One incoming request together with what surrounds its handling:
    how the upstream behaves meanwhile, and the two instants. *)
Record Step := mkStep {
  step_upstream : Url → FetchOutcome;
  step_now : Z;
  step_later : Z;
  step_req : Request
}.

(** The process state after a sequence of requests, handled one after
    the other. *)
Fixpoint serve_all (header_error : string → string → string)
    (API_KEY : string) (steps : list Step) (w : World) : World :=
  match steps with
  | [] => w
  | s :: steps' =>
      serve_all header_error API_KEY steps'
        (server_fetch header_error API_KEY (step_upstream s) (step_now s)
           (step_later s) (step_req s) w).2
  end.

(** The state of a process that has just started (line 11). *)
Definition initial_world : World := {| cache := ∅; outbound := [] |}.

(** An entry of the store, under [key], that comes from the successful
    answer given to one of [steps]. *)
Definition fetched_in (API_KEY : string) (steps : list Step) (key : string)
    (e : CacheEntry) : Prop :=
  ∃ s r, s ∈ steps
         ∧ step_upstream s (reading_url API_KEY key) = Responded r
         ∧ up_ok r = true
         ∧ e = {| data := up_text r; timestamp := step_later s; date := key |}.

(** A sample wording for the platform's [TypeError]. *)
Definition sample_header_error : string → string → string :=
  λ name value, "Header '" +:+ name +:+ "' has invalid value: '" +:+ value +:+ "'".

(** More sample data: an upstream that cannot be reached, one that
    throws something that is no [Error], and some requests. *)
Definition upstream_down : Url → FetchOutcome :=
  λ _, Rejected (JsError "Unable to connect").

Definition upstream_odd : Url → FetchOutcome := λ _, Rejected JsOther.

Definition health_request : Request :=
  {| method := "GET"; pathname := "/health"; query := [] |}.

Definition get_clear_request : Request :=
  {| method := "GET"; pathname := "/cache/clear"; query := [] |}.

Definition keyed_request : Request :=
  {| method := "GET"; pathname := "/reading";
     query := [("key", "client-key"); ("date", "2025-06-15"); ("date", "2025-06-16")] |}.

Definition other_day_request : Request :=
  {| method := "GET"; pathname := "/reading"; query := [("date", "2025-06-16")] |}.

Definition sample_steps : list Step :=
  [ {| step_upstream := upstream_503; step_now := 1000; step_later := 1500;
       step_req := sample_request |};
    {| step_upstream := upstream_200; step_now := 2000; step_later := 2500;
       step_req := sample_request |};
    {| step_upstream := upstream_down; step_now := 3000; step_later := 3500;
       step_req := other_day_request |} ].

(** The [/reading] branch cut at its suspension (the [await] of line
    122): what was decided before it, to be resumed after it.  Either
    the response is already there (a hit), or the request for [date']
    is under way and [outcome] is what it will come back with. *)
Inductive Pending :=
| Answered (resp : Response)
| Awaiting (date' : string) (outcome : FetchOutcome).

(** The 500 that the [catch] of lines 134-140 makes of a thrown value. *)
Definition caught (error : Thrown) : M Response :=
  ret (error_response (thrown_message error)).

(** The part of the [/reading] branch that runs before the suspension
    (lines 106-122): the lookup and, on a hit, the response; on a miss,
    the sending of the request. *)
Definition reading_start (header_error : string → string → string)
    (API_KEY : string) (upstream : Url → FetchOutcome)
    (now : Z) (date' : string) : M Pending :=
  let* cached := getCachedReading now date' in
  match cached with
  | Some cached =>
      let* resp :=
        try_catch
          (new_Response header_error (data cached)
             (addCorsHeaders
                [("Content-Type", "text/html; charset=utf-8");
                 ("X-Cache", "HIT");
                 ("X-Cache-Date", date cached)]))
          caught in
      ret (Answered resp)
  | None =>
      λ w, (Returned (Awaiting date' (upstream (reading_url API_KEY date'))),
            requested (reading_url API_KEY date') w)
  end.

(** The part that runs after the suspension (lines 34-38, 125-133 and
    the [catch] of 134-140). *)
Definition reading_resume (header_error : string → string → string)
    (later : Z) (p : Pending) : M Response :=
  match p with
  | Answered resp => ret resp
  | Awaiting date' outcome =>
      try_catch
        (let* reading :=
           match outcome with
           | Responded r =>
               if negb (up_ok r)
               then throw (JsError (upstream_error_message r))
               else ret (up_text r)
           | Rejected t => throw t
           end in
         run setCachedReading later date' reading then
         new_Response header_error reading
           (addCorsHeaders
              [("Content-Type", "text/html; charset=utf-8");
               ("X-Cache", "MISS");
               ("X-Cache-Date", date')]))
        caught
  end.

(** Every character of the string satisfies the test. *)
Fixpoint string_forall (P : ascii → bool) (s : string) : bool :=
  match s with
  | EmptyString => true
  | String c s' => P c && string_forall P s'
  end.

(** A character that is neither HTTP whitespace nor forbidden in a
    header value. *)
Definition plain_char (c : ascii) : bool :=
  negb (http_whitespace c) && negb (forbidden_in_value c).

(** The Gregorian calendar, on its own: leap years and the lengths of
    the months. *)
Definition is_leap (y : Z) : bool :=
  ((y mod 4 =? 0) && negb (y mod 100 =? 0)) || (y mod 400 =? 0).

Definition days_in_month (y m : Z) : Z :=
  if m =? 2 then (if is_leap y then 29 else 28)
  else if (m =? 4) || (m =? 6) || (m =? 9) || (m =? 11) then 30
  else 31.

(** Reading a decimal numeral: the value of a string of the digits
    "0" to "9", nothing for any other string. *)
Definition digit_value (c : ascii) : option Z :=
  let n := Z.of_N (N_of_ascii c) in
  if (48 <=? n) && (n <=? 57) then Some (n - 48) else None.

Fixpoint decimal_from (acc : Z) (s : string) : option Z :=
  match s with
  | EmptyString => Some acc
  | String c s' =>
      match digit_value c with
      | Some v => decimal_from (10 * acc + v) s'
      | None => None
      end
  end.

Definition decimal (s : string) : option Z := decimal_from 0 s.

(** Two requests whose date the platform does not take as it is: one
    holding a NUL character, one with spaces around the date. *)
Definition nul_date_request : Request :=
  {| method := "GET"; pathname := "/reading";
     query := [("date", String "000"%char "")] |}.

Definition spaced_date_request : Request :=
  {| method := "GET"; pathname := "/reading";
     query := [("date", " 2025-06-15 ")] |}.

(** Case analysis on the integer comparisons of the goal. *)
Ltac case_tests :=
  repeat match goal with
         | |- context [Z.ltb ?a ?b] => destruct (Z.ltb_spec a b)
         | |- context [Z.leb ?a ?b] => destruct (Z.leb_spec a b)
         | |- context [Z.eqb ?a ?b] => destruct (Z.eqb_spec a b)
         end.

(** * Properties *)

(** ** Strings *)

Lemma append_cons (x : ascii) (a b : string) :
  String x a +:+ b = String x (a +:+ b).
Proof. reflexivity. Qed.

Lemma append_assoc (a b c : string) : (a +:+ b) +:+ c = a +:+ b +:+ c.
Proof.
  induction a as [| x a IH]; [done |].
  by rewrite !append_cons, IH.
Qed.

Lemma append_nil_r (a : string) : a +:+ "" = a.
Proof.
  induction a as [| x a IH]; [done |].
  by rewrite append_cons, IH.
Qed.

Lemma append_length (a b : string) :
  String.length (a +:+ b) = (String.length a + String.length b)%nat.
Proof.
  induction a as [| x a IH]; [done |].
  rewrite append_cons. simpl. by rewrite IH.
Qed.

(** ** Lookup *)

Lemma getCachedReading_absent now key w :
  cache w !! key = None →
  getCachedReading now key w = (Returned None, w).
Proof.
  intros H. unfold getCachedReading, bind, cache_get. by rewrite H.
Qed.

Lemma getCachedReading_expired now key w e :
  cache w !! key = Some e → expired now e →
  getCachedReading now key w
  = (Returned None, mkWorld (delete key (cache w)) (outbound w)).
Proof.
  intros H Hexp. unfold getCachedReading, bind, cache_get. rewrite H.
  unfold expired in Hexp.
  destruct (Z.gtb_spec (now - timestamp e) CACHE_TTL_MS); [done | lia].
Qed.

Lemma getCachedReading_valid now key w e :
  cache w !! key = Some e → ¬ expired now e →
  getCachedReading now key w = (Returned (Some e), w).
Proof.
  intros H Hval. unfold getCachedReading, bind, cache_get. rewrite H.
  unfold expired in Hval.
  destruct (Z.gtb_spec (now - timestamp e) CACHE_TTL_MS); [lia | done].
Qed.

(** A lookup never throws, and what it leaves behind is the store with
    at most the looked-up key deleted. *)
Lemma getCachedReading_total now key w :
  ∃ r : option CacheEntry, getCachedReading now key w
       = (Returned r,
          mkWorld (match r with
                   | Some _ => cache w
                   | None => delete key (cache w)
                   end) (outbound w)).
Proof.
  destruct w as [c o]. simpl.
  destruct (c !! key) as [e|] eqn:H.
  - destruct (decide (expired now e)).
    + exists None. by rewrite (getCachedReading_expired _ _ _ e).
    + exists (Some e). by rewrite (getCachedReading_valid _ _ _ e).
  - exists None. rewrite getCachedReading_absent by done.
    simpl. by rewrite delete_id.
Qed.

(** C1. For every key and instant, [getCachedReading] returns absent on
    a key that is not in the store (store untouched); on a key whose
    entry is older than the TTL it deletes that entry, and only that
    entry, and returns absent; on a key whose entry is within the TTL
    (age equal to the TTL included) it returns the stored entry itself
    and leaves the whole store, timestamp included, as it was. *)
Theorem getCachedReading_spec (now : Z) (key : string) (w : World) :
  (cache w !! key = None →
     getCachedReading now key w = (Returned None, w))
  ∧ (∀ e, cache w !! key = Some e → now - timestamp e > CACHE_TTL_MS →
       ∃ w', getCachedReading now key w = (Returned None, w')
             ∧ cache w' = delete key (cache w)
             ∧ cache w' !! key = None
             ∧ (∀ k, k ≠ key → cache w' !! k = cache w !! k)
             ∧ outbound w' = outbound w)
  ∧ (∀ e, cache w !! key = Some e → now - timestamp e ≤ CACHE_TTL_MS →
       getCachedReading now key w = (Returned (Some e), w)
       ∧ cache w !! key = Some e).
Proof.
  split; [apply getCachedReading_absent |]. split.
  - intros e H Hexp. eexists. split.
    + by apply (getCachedReading_expired _ _ _ e).
    + simpl. split; [done |]. split; [apply lookup_delete_eq |].
      split; [| done]. intros k Hk. by apply lookup_delete_ne.
  - intros e H Hval. split; [| done].
    apply getCachedReading_valid; [done |]. unfold expired. lia.
Qed.

Lemma getCachedReading_spec_witness :
  getCachedReading 7 "2025-06-16" sample_world = (Returned None, sample_world)
  ∧ (∃ w', getCachedReading 3600001 "2025-06-15" sample_world = (Returned None, w')
           ∧ cache w' !! "2025-06-15" = None)
  ∧ getCachedReading 3600000 "2025-06-15" sample_world
    = (Returned (Some sample_entry), sample_world).
Proof.
  split; [| split].
  - apply (getCachedReading_spec 7 "2025-06-16" sample_world). reflexivity.
  - destruct (getCachedReading_spec 3600001 "2025-06-15" sample_world)
      as (_ & H & _).
    destruct (H sample_entry) as (w' & Hget & _ & Hnone & _);
      [reflexivity | vm_compute; reflexivity |].
    exists w'. split; assumption.
  - destruct (getCachedReading_spec 3600000 "2025-06-15" sample_world)
      as (_ & _ & H).
    apply (H sample_entry); [reflexivity | vm_compute; discriminate].
Defined.

Lemma setCachedReading_run now key v w :
  setCachedReading now key v w
  = (Returned (),
     mkWorld (<[key := {| data := v; timestamp := now; date := key |}]> (cache w))
             (outbound w)).
Proof. reflexivity. Qed.

(** ** The lazy-expiry invariant *)

(** What each store operation does to the map. *)
Lemma run_op_cache now op w :
  cache (run_op now op w).2 =
    match op with
    | OpGet key =>
        match cache w !! key with
        | Some e => if decide (expired now e) then delete key (cache w) else cache w
        | None => cache w
        end
    | OpPut key v => <[key := {| data := v; timestamp := now; date := key |}]> (cache w)
    | OpClear => ∅
    | OpStats => cache w
    end.
Proof.
  destruct op as [key | key v | |]; try reflexivity.
  unfold run_op, bind.
  destruct (cache w !! key) as [e|] eqn:H.
  - destruct (decide (expired now e)).
    + by rewrite (getCachedReading_expired _ _ _ e).
    + by rewrite (getCachedReading_valid _ _ _ e).
  - by rewrite getCachedReading_absent.
Qed.

(** C2. After any of the four store operations (lookup, write, clear,
    statistics), every entry in the map is either within the TTL at an
    instant [t] or is deleted by a lookup of its key at any instant
    [t' >= t]; and an operation that is neither a lookup of key [k] nor
    a clear leaves key [k] in the map: with the very same entry, unless
    the operation is a write to [k], which overwrites it. *)
Theorem lazy_expiry_invariant (now : Z) (op : StoreOp) (w : World) :
  (∀ k e t t',
      cache (run_op now op w).2 !! k = Some e → t ≤ t' →
      t - timestamp e ≤ CACHE_TTL_MS
      ∨ ∃ w'', getCachedReading t' k (run_op now op w).2 = (Returned None, w'')
               ∧ cache w'' !! k = None)
  ∧ (∀ k e,
        cache w !! k = Some e → op ≠ OpGet k → op ≠ OpClear →
        is_Some (cache (run_op now op w).2 !! k)
        ∧ ((∀ v, op ≠ OpPut k v) → cache (run_op now op w).2 !! k = Some e)).
Proof.
  split.
  - intros k e t t' Hk Hle.
    destruct (decide (expired t e)) as [Hexp | Hval].
    + right. eexists. split.
      * apply (getCachedReading_expired _ _ _ e); [done |].
        unfold expired in *. lia.
      * apply lookup_delete_eq.
    + left. unfold expired in Hval. lia.
  - intros k e Hk Hget Hclear. rewrite run_op_cache.
    destruct op as [key | key v | |]; [| | done |].
    + assert (key ≠ k) by congruence.
      assert (cache w !! k = Some e →
              is_Some (cache w !! k) ∧ ((∀ v, OpGet key ≠ OpPut k v) → cache w !! k = Some e))
        as Hsame by (intros ->; eauto).
      destruct (cache w !! key) as [e'|]; [| by apply Hsame].
      destruct (decide (expired now e')); [| by apply Hsame].
      rewrite lookup_delete_ne by done. by apply Hsame.
    + destruct (decide (key = k)) as [-> | Hne].
      * rewrite lookup_insert_eq. split; [eauto |].
        intros Hv. by destruct (Hv v).
      * rewrite lookup_insert_ne by done. rewrite Hk. eauto.
    + rewrite Hk. eauto.
Qed.

Lemma lazy_expiry_invariant_witness :
  (3600001 - timestamp sample_entry ≤ CACHE_TTL_MS
   ∨ ∃ w'', getCachedReading 3600002 "2025-06-15"
              (run_op 3600001 (OpPut "2025-06-16" "later") sample_world).2
            = (Returned None, w'')
            ∧ cache w'' !! "2025-06-15" = None)
  ∧ cache (run_op 3600001 (OpPut "2025-06-16" "later") sample_world).2
      !! "2025-06-15" = Some sample_entry.
Proof.
  destruct (lazy_expiry_invariant 3600001 (OpPut "2025-06-16" "later") sample_world)
    as [Hinv Hkeep].
  split.
  - apply (Hinv "2025-06-15" sample_entry 3600001 3600002);
      [reflexivity | lia].
  - apply (Hkeep "2025-06-15" sample_entry);
      [reflexivity | discriminate | discriminate | intros v; congruence].
Defined.

(** ** The reading fetcher *)

Section Fetcher.

Variable API_KEY : string.
Variable upstream : Url → FetchOutcome.

Lemma fetchReading_ok date w r :
  upstream (reading_url API_KEY date) = Responded r → up_ok r = true →
  fetchReading API_KEY upstream date w
  = (Returned (up_text r), requested (reading_url API_KEY date) w).
Proof.
  intros Hup Hok. unfold fetchReading, bind, fetch. by rewrite Hup, Hok.
Qed.

Lemma fetchReading_not_ok date w r :
  upstream (reading_url API_KEY date) = Responded r → up_ok r = false →
  fetchReading API_KEY upstream date w
  = (Threw (JsError (upstream_error_message r)),
     requested (reading_url API_KEY date) w).
Proof.
  intros Hup Hok. unfold fetchReading, bind, fetch. by rewrite Hup, Hok.
Qed.

(** When the platform's [fetch] rejects, the rejection passes through. *)
Lemma fetchReading_rejected date w t :
  upstream (reading_url API_KEY date) = Rejected t →
  fetchReading API_KEY upstream date w
  = (Threw t, requested (reading_url API_KEY date) w).
Proof.
  intros Hup. unfold fetchReading, bind, fetch. by rewrite Hup.
Qed.

(** Whatever the upstream does, [fetchReading] issues exactly one
    request, to the URL built from the date, and leaves the cache alone. *)
Lemma fetchReading_world date w :
  (fetchReading API_KEY upstream date w).2
  = requested (reading_url API_KEY date) w.
Proof.
  unfold fetchReading, bind, fetch.
  destruct (upstream _) as [r | t]; [| done].
  by destruct (up_ok r).
Qed.

(** The message of an upstream error holds the status code and the
    status text. *)
Lemma upstream_error_message_contains r :
  contains (pretty (up_status r)) (upstream_error_message r)
  ∧ contains (up_statusText r) (upstream_error_message r).
Proof.
  unfold upstream_error_message. split.
  - exists "NLT API error: ", (" " +:+ up_statusText r). done.
  - exists ("NLT API error: " +:+ pretty (up_status r) +:+ " "), "".
    by rewrite append_nil_r, !append_assoc.
Qed.

(** C4. When the upstream answers the request for [date] with the
    response [r], [fetchReading] returns exactly when [r] has a success
    status (200-299), and then it returns the body of [r] as it is; it
    throws the error whose message holds the status code and the status
    text of [r] exactly when [r] has a non-success status.  Either way
    one single request went out (no retry). *)
Theorem fetchReading_spec (date : string) (w : World) (r : UpstreamResponse) :
  upstream (reading_url API_KEY date) = Responded r →
  (up_ok r = true ↔
     fetchReading API_KEY upstream date w
     = (Returned (up_text r), requested (reading_url API_KEY date) w))
  ∧ (up_ok r = true ↔
       ∃ body w', fetchReading API_KEY upstream date w = (Returned body, w'))
  ∧ (up_ok r = false ↔
       fetchReading API_KEY upstream date w
       = (Threw (JsError ("NLT API error: " +:+ pretty (up_status r)
                            +:+ " " +:+ up_statusText r)),
          requested (reading_url API_KEY date) w))
  ∧ (up_ok r = false ↔
       ∃ t w', fetchReading API_KEY upstream date w = (Threw t, w'))
  ∧ outbound (fetchReading API_KEY upstream date w).2
    = outbound w ++ [reading_url API_KEY date].
Proof.
  intros Hup.
  destruct (up_ok r) eqn:Hok.
  - pose proof (fetchReading_ok date w r Hup Hok) as Hrun.
    rewrite Hrun. repeat split; try done; eauto.
    + intros (t & w' & [=]).
  - pose proof (fetchReading_not_ok date w r Hup Hok) as Hrun.
    rewrite Hrun. repeat split; try done; eauto.
    + intros (b & w' & [=]).
Qed.

End Fetcher.

Lemma fetchReading_spec_witness :
  (up_ok reading_200 = true ↔
     fetchReading "k" upstream_200 "2025-06-15" sample_world
     = (Returned "<html>reading</html>",
        requested (reading_url "k" "2025-06-15") sample_world))
  ∧ (up_ok unavailable = false ↔
       fetchReading "k" upstream_503 "2025-06-15" sample_world
       = (Threw (JsError "NLT API error: 503 Service Unavailable"),
          requested (reading_url "k" "2025-06-15") sample_world)).
Proof.
  split.
  - apply (fetchReading_spec "k" upstream_200 "2025-06-15" sample_world reading_200).
    reflexivity.
  - apply (fetchReading_spec "k" upstream_503 "2025-06-15" sample_world unavailable).
    reflexivity.
Defined.

(** ** Building a response *)

(** What [Headers] makes of a value is the normalized value, when that
    is allowed. *)
Lemma header_value_Some v v' :
  header_value v = Some v' → v' = normalize_value v.
Proof.
  unfold header_value. destruct (value_allowed _); [| done].
  by intros [= <-].
Qed.

(** The bag of the [/reading] responses, spread out. *)
Lemma addCorsHeaders_reading x d :
  addCorsHeaders
    [("Content-Type", "text/html; charset=utf-8"); ("X-Cache", x);
     ("X-Cache-Date", d)]
  = corsHeaders
    ++ [("Content-Type", "text/html; charset=utf-8"); ("X-Cache", x);
        ("X-Cache-Date", d)].
Proof. reflexivity. Qed.

(** Building the response of the [/reading] branch: the constant
    headers pass as they are; the date passes normalized, or makes the
    constructor throw. *)
Lemma new_Response_reading header_error x b d w :
  header_value x = Some x →
  new_Response header_error b
    (addCorsHeaders
       [("Content-Type", "text/html; charset=utf-8"); ("X-Cache", x);
        ("X-Cache-Date", d)]) w
  = match header_value d with
    | Some v => (Returned (reading_response x b v), w)
    | None => (Threw (JsError (header_error "X-Cache-Date" d)), w)
    end.
Proof.
  intros Hx. unfold reading_response. rewrite !addCorsHeaders_reading.
  unfold new_Response, corsHeaders, bind. simpl.
  change (header_value "*") with (Some "*").
  change (header_value "GET, POST, PUT, DELETE, OPTIONS")
    with (Some "GET, POST, PUT, DELETE, OPTIONS").
  change (header_value "text/html; charset=utf-8")
    with (Some "text/html; charset=utf-8").
  unfold bind. rewrite Hx. unfold bind.
  by destruct (header_value d).
Qed.

(** Inside the [try], the response or the 500 of the [catch]. *)
Lemma try_new_Response_reading header_error x b d w :
  header_value x = Some x →
  try_catch
    (new_Response header_error b
       (addCorsHeaders
          [("Content-Type", "text/html; charset=utf-8"); ("X-Cache", x);
           ("X-Cache-Date", d)]))
    caught w
  = (Returned (reading_answer header_error x b d), w).
Proof.
  intros Hx. unfold try_catch, reading_answer.
  rewrite new_Response_reading by done.
  by destruct (header_value d).
Qed.

(** The answer in its two cases. *)
Lemma reading_answer_accepted header_error x b d v :
  header_value d = Some v →
  reading_answer header_error x b d = reading_response x b v
  ∧ v = normalize_value d.
Proof.
  intros Hv. unfold reading_answer. rewrite Hv.
  split; [done | by apply header_value_Some].
Qed.

Lemma reading_answer_refused header_error x b d :
  header_value d = None →
  reading_answer header_error x b d
  = error_response (header_error "X-Cache-Date" d).
Proof. intros Hv. unfold reading_answer. by rewrite Hv. Qed.

(** The constant bags are left as they are by the filling of
    [Headers]. *)
Lemma Headers_fill_cors header_error w :
  Headers_fill header_error corsHeaders w = (Returned corsHeaders, w)
  ∧ Headers_fill header_error (addCorsHeaders []) w
    = (Returned (addCorsHeaders []), w).
Proof. split; reflexivity. Qed.

(** A date holding NUL: the fetch succeeds and the body is stored, then
    building the response throws and the answer is 500. *)
Example nul_date_answers_500 :
  ∃ resp w',
    server_fetch sample_header_error "k" upstream_200 10 20 nul_date_request
      initial_world
    = (Returned resp, w')
    ∧ status resp = 500
    ∧ is_Some (cache w' !! String "000"%char "").
Proof.
  eexists _, _. split; [vm_compute; reflexivity |].
  split; [reflexivity |]. eexists. reflexivity.
Qed.

(** A date with spaces around it: the key and the upstream parameter
    keep the spaces, the header loses them. *)
Example spaced_date_is_trimmed :
  ∃ resp w',
    server_fetch sample_header_error "k" upstream_200 10 20 spaced_date_request
      initial_world
    = (Returned resp, w')
    ∧ status resp = 200
    ∧ obj_get "X-Cache-Date" (headers resp) = Some "2025-06-15"
    ∧ is_Some (cache w' !! " 2025-06-15 ")
    ∧ outbound w' = [reading_url "k" " 2025-06-15 "].
Proof.
  eexists _, _. split; [vm_compute; reflexivity |].
  split; [reflexivity |]. split; [reflexivity |].
  split; [eexists; reflexivity | reflexivity].
Qed.

(** ** The [/reading] route *)

Section Reading.

Variable header_error : string → string → string.
Variable API_KEY : string.
Variable upstream : Url → FetchOutcome.

Lemma server_fetch_reading now later req w :
  method req ≠ "OPTIONS" → pathname req = "/reading" →
  server_fetch header_error API_KEY upstream now later req w
  = reading_handler header_error API_KEY upstream now later (resolved_date now req) w.
Proof.
  intros Hm Hp. unfold server_fetch.
  rewrite decide_False by done.
  rewrite decide_False by (rewrite Hp; discriminate).
  by rewrite decide_True.
Qed.

(** A miss leaves the store with the looked-up key deleted (which is no
    change when the key was not there). *)
Lemma getCachedReading_miss now key w :
  (getCachedReading now key w).1 = Returned None →
  getCachedReading now key w
  = (Returned None, mkWorld (delete key (cache w)) (outbound w)).
Proof.
  destruct (getCachedReading_total now key w) as [r Hr].
  rewrite Hr. simpl. by intros [= ->].
Qed.

(** The [/reading] branch on a miss followed by a failed fetch. *)
Lemma reading_handler_miss_failure now later date' w r :
  (getCachedReading now date' w).1 = Returned None →
  upstream (reading_url API_KEY date') = Responded r → up_ok r = false →
  reading_handler header_error API_KEY upstream now later date' w
  = (Returned (Response_json (JObj [("error", JStr (upstream_error_message r))])
                 500 (addCorsHeaders [])),
     mkWorld (delete date' (cache w))
             (outbound w ++ [reading_url API_KEY date'])).
Proof.
  intros Hmiss Hup Hok. unfold reading_handler, try_catch, bind.
  rewrite (getCachedReading_miss _ _ _ Hmiss).
  by rewrite (fetchReading_not_ok _ _ _ _ r).
Qed.

(** The [/reading] branch on a hit: the cached payload, no request, no
    change. *)
Lemma reading_handler_hit now later date' w e :
  cache w !! date' = Some e → ¬ expired now e →
  reading_handler header_error API_KEY upstream now later date' w
  = (Returned (reading_answer header_error "HIT" (data e) (date e)), w).
Proof.
  intros He Hval. unfold reading_handler, try_catch, bind.
  rewrite (getCachedReading_valid _ _ _ e) by done.
  unfold reading_answer. rewrite new_Response_reading by done.
  by destruct (header_value (date e)).
Qed.

(** The [/reading] branch on a miss followed by a successful fetch: the
    body is stored under the date, stamped with the instant after the
    suspension, and then answered. *)
Lemma reading_handler_miss_success now later date' w r :
  (getCachedReading now date' w).1 = Returned None →
  upstream (reading_url API_KEY date') = Responded r → up_ok r = true →
  reading_handler header_error API_KEY upstream now later date' w
  = (Returned (reading_answer header_error "MISS" (up_text r) date'),
     mkWorld (<[date' := {| data := up_text r; timestamp := later; date := date' |}]>
                (cache w))
             (outbound w ++ [reading_url API_KEY date'])).
Proof.
  intros Hmiss Hup Hok. unfold reading_handler, try_catch, bind.
  rewrite (getCachedReading_miss _ _ _ Hmiss).
  rewrite (fetchReading_ok _ _ _ _ r) by done.
  rewrite setCachedReading_run. simpl.
  unfold reading_answer. rewrite new_Response_reading by done.
  rewrite insert_delete_eq.
  by destruct (header_value date').
Qed.

(** The run of the [/reading] branch, by what the lookup and the
    upstream do. *)
Lemma reading_handler_cases now later d w :
  (∃ e, cache w !! d = Some e ∧ ¬ expired now e
        ∧ reading_handler header_error API_KEY upstream now later d w
          = (Returned (reading_answer header_error "HIT" (data e) (date e)), w))
  ∨ ((getCachedReading now d w).1 = Returned None
     ∧ ((∃ r, upstream (reading_url API_KEY d) = Responded r ∧ up_ok r = true
              ∧ reading_handler header_error API_KEY upstream now later d w
                = (Returned (reading_answer header_error "MISS" (up_text r) d),
                   mkWorld (<[d := {| data := up_text r; timestamp := later;
                                      date := d |}]> (cache w))
                     (outbound w ++ [reading_url API_KEY d])))
        ∨ (∃ msg, reading_handler header_error API_KEY upstream now later d w
                  = (Returned (error_response msg),
                     mkWorld (delete d (cache w))
                       (outbound w ++ [reading_url API_KEY d]))
                  ∧ ((∃ r, upstream (reading_url API_KEY d) = Responded r
                           ∧ up_ok r = false ∧ msg = upstream_error_message r)
                     ∨ (∃ t, upstream (reading_url API_KEY d) = Rejected t
                             ∧ msg = thrown_message t))))).
Proof.
  destruct (getCachedReading_total now d w) as [[e |] Hget].
  - left. exists e.
    assert (cache w !! d = Some e ∧ ¬ expired now e) as [He Hval].
    { destruct (cache w !! d) as [e' |] eqn:He'.
      - destruct (decide (expired now e')) as [Hexp | Hval].
        + rewrite (getCachedReading_expired _ _ _ e') in Hget by done. done.
        + rewrite (getCachedReading_valid _ _ _ e') in Hget by done.
          by injection Hget as ->.
      - rewrite getCachedReading_absent in Hget by done. done. }
    split; [done |]. split; [done |].
    by apply reading_handler_hit.
  - right.
    assert ((getCachedReading now d w).1 = Returned None) as Hmiss
      by (by rewrite Hget).
    split; [done |].
    destruct (upstream (reading_url API_KEY d)) as [r | t] eqn:Hup.
    + destruct (up_ok r) eqn:Hok.
      * left. exists r. split; [done |]. split; [done |].
        by apply reading_handler_miss_success.
      * right. exists (upstream_error_message r). split.
        -- by apply reading_handler_miss_failure.
        -- left. by exists r.
    + right. exists (thrown_message t). split.
      * unfold reading_handler, try_catch, bind.
        rewrite (getCachedReading_miss _ _ _ Hmiss).
        rewrite (fetchReading_rejected _ _ _ _ t) by done.
        by destruct t.
      * right. by exists t.
Qed.

(** C3 (amended). On a cache miss for the resolved date followed by a
    non-success answer of the upstream, the handler returns a 500
    response whose error message holds the status, and writes no entry:
    the store is the one the lookup left, that is the old store without
    the key of that date (the very same store when the date had no
    entry, the expired entry evicted otherwise); every other key keeps
    its entry, and one single request went out. *)
Theorem failed_miss_writes_nothing (now later : Z) (req : Request) (w : World)
    (r : UpstreamResponse) :
  method req ≠ "OPTIONS" → pathname req = "/reading" →
  (getCachedReading now (resolved_date now req) w).1 = Returned None →
  upstream (reading_url API_KEY (resolved_date now req)) = Responded r →
  up_ok r = false →
  ∃ resp w' msg,
    server_fetch header_error API_KEY upstream now later req w = (Returned resp, w')
    ∧ status resp = 500
    ∧ body resp = error_body msg
    ∧ msg = upstream_error_message r
    ∧ contains (pretty (up_status r)) msg
    ∧ cache w' = delete (resolved_date now req) (cache w)
    ∧ cache w' !! resolved_date now req = None
    ∧ (∀ k, k ≠ resolved_date now req → cache w' !! k = cache w !! k)
    ∧ (cache w !! resolved_date now req = None → cache w' = cache w)
    ∧ outbound w' = outbound w ++ [reading_url API_KEY (resolved_date now req)].
Proof.
  intros Hm Hp Hmiss Hup Hok.
  rewrite server_fetch_reading by done.
  rewrite (reading_handler_miss_failure _ _ _ _ r) by done.
  eexists _, _, _. split; [reflexivity |]. simpl.
  repeat split.
  - apply upstream_error_message_contains.
  - apply lookup_delete_eq.
  - intros k Hk. by apply lookup_delete_ne.
  - intros Hnone. by apply delete_id.
Qed.

End Reading.

(** The scenario of a first request for 2025-06-15 answered by the
    upstream, then a second one within the hour: a miss that stores the
    body, then a hit with the same body and no further request (the
    upstream of the second run would have failed). *)
Example second_request_is_a_hit :
  ∃ miss w1 hit,
    server_fetch sample_header_error "k" upstream_200 1000 2000 sample_request (mkWorld ∅ [])
    = (Returned miss, w1)
    ∧ cache w1 = {[ "2025-06-15" := {| data := "<html>reading</html>";
                                        timestamp := 2000;
                                        date := "2025-06-15" |} ]}
    ∧ outbound w1 = [reading_url "k" "2025-06-15"]
    ∧ server_fetch sample_header_error "k" upstream_503 3602000 3603000 sample_request w1
      = (Returned hit, w1)
    ∧ body miss = BodyText "<html>reading</html>"
    ∧ body hit = BodyText "<html>reading</html>"
    ∧ params_get "X-Cache" (headers miss) = Some "MISS"
    ∧ params_get "X-Cache" (headers hit) = Some "HIT".
Proof.
  eexists _, _, _. split; [vm_compute; reflexivity |].
  split; [reflexivity |]. split; [reflexivity |].
  split; [vm_compute; reflexivity |].
  repeat split.
Qed.

Lemma failed_miss_writes_nothing_witness :
  ∃ resp w',
    server_fetch sample_header_error "k" upstream_503 3600001 3600002 sample_request sample_world
    = (Returned resp, w')
    ∧ status resp = 500
    ∧ body resp = error_body "NLT API error: 503 Service Unavailable"
    ∧ cache w' !! "2025-06-15" = None.
Proof.
  destruct (failed_miss_writes_nothing sample_header_error "k" upstream_503 3600001 3600002
              sample_request sample_world unavailable)
    as (resp & w' & msg & Hrun & Hst & Hbody & -> & _ & _ & Hnone & _);
    [discriminate | reflexivity | reflexivity | reflexivity | reflexivity |].
  exists resp, w'. repeat split; assumption.
Defined.

(** C3 (as stated) fails: with an expired entry under the requested
    date, the request is a miss, the upstream answers 503, the handler
    answers 500 with the status in the message, and the store has
    changed: the expired entry is gone. *)
Lemma failed_miss_changes_store :
  cache sample_world !! "2025-06-15" = Some sample_entry
  ∧ (getCachedReading 3600001 (resolved_date 3600001 sample_request) sample_world).1
    = Returned None
  ∧ upstream_503 (reading_url "k" (resolved_date 3600001 sample_request))
    = Responded unavailable
  ∧ up_ok unavailable = false
  ∧ ∃ resp w',
      server_fetch sample_header_error "k" upstream_503 3600001 3600002 sample_request sample_world
      = (Returned resp, w')
      ∧ status resp = 500
      ∧ body resp = error_body "NLT API error: 503 Service Unavailable"
      ∧ cache w' !! "2025-06-15" = None
      ∧ cache w' ≠ cache sample_world.
Proof.
  do 4 (split; [reflexivity |]).
  eexists _, _. split; [vm_compute; reflexivity |].
  do 3 (split; [reflexivity |]).
  intros Hsame.
  apply (f_equal (λ c : gmap string CacheEntry, c !! "2025-06-15")) in Hsame.
  vm_compute in Hsame. discriminate.
Qed.

(** Hence the sentence does not hold of the handler. *)
Lemma not_failed_miss_leaves_store_unchanged :
  ¬ failed_miss_leaves_store_unchanged.
Proof.
  intros Hclaim.
  destruct (Hclaim sample_header_error "k" upstream_503 3600001 3600002 sample_request
              sample_world unavailable)
    as (resp & w' & msg & Hrun & _ & _ & _ & Hsame);
    [discriminate | reflexivity | reflexivity | reflexivity | reflexivity |].
  vm_compute in Hrun. injection Hrun as _ <-.
  apply (f_equal (λ c : gmap string CacheEntry, c !! "2025-06-15")) in Hsame.
  vm_compute in Hsame. discriminate.
Qed.

(** ** Statistics *)

Lemma Math_round_div_nearest (a b : Z) :
  0 < b → - b ≤ 2 * (a - b * Math_round_div a b) < b.
Proof.
  intros Hb. unfold Math_round_div.
  pose proof (Z.div_mod (2 * a + b) (2 * b)) as Hdm.
  pose proof (Z.mod_pos_bound (2 * a + b) (2 * b)) as Hmod.
  nia.
Qed.

Lemma cache_stats_run now w :
  cache_stats now w
  = (Returned (JObj [("size", JNum (Z.of_nat (size (cache w))));
                     ("ttlMs", JNum CACHE_TTL_MS);
                     ("entries", JArr (stats_entry now <$> map_to_list (cache w)))]),
     w).
Proof. reflexivity. Qed.

Section Stats.

Variable header_error : string → string → string.
Variable API_KEY : string.
Variable upstream : Url → FetchOutcome.

Lemma server_fetch_stats now later req w :
  method req ≠ "OPTIONS" → pathname req = "/cache/stats" →
  server_fetch header_error API_KEY upstream now later req w
  = (Returned (Response_json
                 (JObj [("size", JNum (Z.of_nat (size (cache w))));
                        ("ttlMs", JNum CACHE_TTL_MS);
                        ("entries",
                         JArr (stats_entry now <$> map_to_list (cache w)))])
                 200 (addCorsHeaders [])),
     w).
Proof.
  intros Hm Hp. unfold server_fetch.
  rewrite decide_False by done.
  rewrite decide_False by (rewrite Hp; discriminate).
  rewrite decide_False by (rewrite Hp; discriminate).
  rewrite decide_True by done.
  unfold bind. by rewrite cache_stats_run.
Qed.

(** C5. The [/cache/stats] answer reports as [size] the number of keys
    in the map and, in [entries], exactly one object per entry of the
    map, whatever the age of the entry (no comparison with the TTL is
    made): its [age] is the decimal text, followed by "s", of the whole
    number of seconds nearest to [now - timestamp] milliseconds (a tie
    going up). *)
Theorem stats_spec (now later : Z) (req : Request) (w : World) :
  method req ≠ "OPTIONS" → pathname req = "/cache/stats" →
  ∃ entries,
    server_fetch header_error API_KEY upstream now later req w
    = (Returned (Response_json
                   (JObj [("size", JNum (Z.of_nat (size (cache w))));
                          ("ttlMs", JNum CACHE_TTL_MS);
                          ("entries", JArr entries)])
                   200 (addCorsHeaders [])),
       w)
    ∧ length entries = size (cache w)
    ∧ (∀ k e, cache w !! k = Some e →
         ∃ age,
           JObj [("key", JStr k); ("date", JStr (date e));
                 ("age", JStr (pretty age +:+ "s"))] ∈ entries
           ∧ age = Math_round_div (now - timestamp e) 1000
           ∧ -500 ≤ (now - timestamp e) - 1000 * age < 500)
    ∧ (∀ j, j ∈ entries →
         ∃ k e, cache w !! k = Some e ∧ j = stats_entry now (k, e)).
Proof.
  intros Hm Hp.
  exists (stats_entry now <$> map_to_list (cache w)).
  split; [by apply server_fetch_stats |].
  split; [by rewrite length_fmap, length_map_to_list |].
  split.
  - intros k e Hk. exists (Math_round_div (now - timestamp e) 1000).
    split; [| split; [done |]].
    + apply (list_elem_of_fmap_2 (stats_entry now) _ (k, e)).
      by apply elem_of_map_to_list.
    + pose proof (Math_round_div_nearest (now - timestamp e) 1000). lia.
  - intros j Hj. apply list_elem_of_fmap in Hj as ([k e] & -> & Hin).
    exists k, e. split; [by apply elem_of_map_to_list | done].
Qed.

(** C6. Whatever the request method, a request to [/cache/stats] leaves
    the process state as it found it: the map afterwards is the map
    before, entry for entry, expired entries included. *)
Theorem stats_read_only (now later : Z) (req : Request) (w : World) :
  pathname req = "/cache/stats" →
  (server_fetch header_error API_KEY upstream now later req w).2 = w
  ∧ (cache_stats now w).2 = w
  ∧ (∀ k e, cache w !! k = Some e → expired now e →
       cache (server_fetch header_error API_KEY upstream now later req w).2 !! k = Some e).
Proof.
  intros Hp.
  assert ((server_fetch header_error API_KEY upstream now later req w).2 = w) as Hw.
  { destruct (decide (method req = "OPTIONS")) as [Hm | Hm].
    - unfold server_fetch. by rewrite decide_True.
    - by rewrite server_fetch_stats. }
  split; [done |]. split; [done |].
  intros k e Hk _. by rewrite Hw.
Qed.

End Stats.

Lemma stats_spec_witness :
  ∃ entries,
    server_fetch sample_header_error "k" upstream_503 5000400 0 stats_request sample_world
    = (Returned (Response_json
                   (JObj [("size", JNum (Z.of_nat (size (cache sample_world))));
                          ("ttlMs", JNum CACHE_TTL_MS);
                          ("entries", JArr entries)])
                   200 (addCorsHeaders [])),
       sample_world)
    ∧ length entries = size (cache sample_world)
    ∧ JObj [("key", JStr "2025-06-15"); ("date", JStr "2025-06-15");
            ("age", JStr "5000s")] ∈ entries.
Proof.
  destruct (stats_spec sample_header_error "k" upstream_503 5000400 0 stats_request sample_world)
    as (entries & Hrun & Hlen & Hin & _); [discriminate | reflexivity |].
  exists entries. split; [exact Hrun |]. split; [exact Hlen |].
  destruct (Hin "2025-06-15" sample_entry) as (age & Hel & -> & _);
    [reflexivity |].
  exact Hel.
Defined.

Lemma stats_read_only_witness :
  (server_fetch sample_header_error "k" upstream_503 5000400 0 stats_request sample_world).2
  = sample_world
  ∧ cache (server_fetch sample_header_error "k" upstream_503 5000400 0 stats_request sample_world).2
      !! "2025-06-15" = Some sample_entry.
Proof.
  destruct (stats_read_only sample_header_error "k" upstream_503 5000400 0 stats_request sample_world)
    as (Hw & _ & Hkeep); [reflexivity |].
  split; [exact Hw |].
  apply Hkeep; [reflexivity | vm_compute; reflexivity].
Defined.

(** ** Writes *)

(** C7. Two successive writes to the same key leave the store exactly
    as the second write alone would (nothing of the first value or of
    its timestamp remains): the entry under the key has the second
    value, the instant of the second write as timestamp, and the key as
    date.  A later lookup returns that entry as long as the time since
    the second write is within the TTL, and reports absent after that,
    whenever the first write was made. *)
Theorem last_write_wins (t1 t2 t3 : Z) (k v1 v2 : string) (w : World) :
  (setCachedReading t2 k v2 (setCachedReading t1 k v1 w).2).2
  = (setCachedReading t2 k v2 w).2
  ∧ cache (setCachedReading t2 k v2 (setCachedReading t1 k v1 w).2).2 !! k
    = Some {| data := v2; timestamp := t2; date := k |}
  ∧ (t3 - t2 ≤ CACHE_TTL_MS →
       getCachedReading t3 k (setCachedReading t2 k v2 (setCachedReading t1 k v1 w).2).2
       = (Returned (Some {| data := v2; timestamp := t2; date := k |}),
          (setCachedReading t2 k v2 (setCachedReading t1 k v1 w).2).2))
  ∧ (t3 - t2 > CACHE_TTL_MS →
       (getCachedReading t3 k
          (setCachedReading t2 k v2 (setCachedReading t1 k v1 w).2).2).1
       = Returned None).
Proof.
  rewrite !setCachedReading_run. simpl.
  assert (∀ c : gmap string CacheEntry,
             <[k := {| data := v2; timestamp := t2; date := k |}]> c !! k
             = Some {| data := v2; timestamp := t2; date := k |}) as Hlook
    by (intros c; apply lookup_insert_eq).
  split; [by rewrite insert_insert_eq |].
  split; [apply Hlook |]. split.
  - intros Hval. apply getCachedReading_valid; [apply Hlook |].
    unfold expired. simpl. lia.
  - intros Hexp.
    rewrite (getCachedReading_expired _ _ _
               {| data := v2; timestamp := t2; date := k |});
      [done | apply Hlook | done].
Qed.

Lemma last_write_wins_witness :
  getCachedReading 4000000 "2025-06-15"
    (setCachedReading 3000000 "2025-06-15" "second"
       (setCachedReading 0 "2025-06-15" "first" sample_world).2).2
  = (Returned (Some {| data := "second"; timestamp := 3000000; date := "2025-06-15" |}),
     (setCachedReading 3000000 "2025-06-15" "second"
        (setCachedReading 0 "2025-06-15" "first" sample_world).2).2)
  ∧ (getCachedReading 7000000 "2025-06-15"
       (setCachedReading 3000000 "2025-06-15" "second"
          (setCachedReading 0 "2025-06-15" "first" sample_world).2).2).1
    = Returned None.
Proof.
  split.
  - apply (last_write_wins 0 3000000 4000000 "2025-06-15" "first" "second" sample_world).
    vm_compute. discriminate.
  - apply (last_write_wins 0 3000000 7000000 "2025-06-15" "first" "second" sample_world).
    vm_compute. reflexivity.
Defined.

(** C8. A write of [v] under [k] at instant [t], followed with nothing
    in between by a lookup of [k] at an instant [t'] within the TTL of
    [t], returns an entry whose data is [v] (and whose timestamp is [t]
    and date [k]); the lookup leaves the store as the write left it. *)
Theorem put_get_roundtrip (t t' : Z) (k v : string) (w : World) :
  t' - t ≤ CACHE_TTL_MS →
  ∃ e, getCachedReading t' k (setCachedReading t k v w).2
       = (Returned (Some e), (setCachedReading t k v w).2)
       ∧ data e = v ∧ timestamp e = t ∧ date e = k.
Proof.
  intros Hval. rewrite setCachedReading_run. simpl.
  exists {| data := v; timestamp := t; date := k |}.
  split; [| done].
  apply getCachedReading_valid; [apply lookup_insert_eq |].
  unfold expired. simpl. lia.
Qed.

Lemma put_get_roundtrip_witness :
  ∃ e, getCachedReading 3600000 "2025-06-16"
         (setCachedReading 0 "2025-06-16" "psalm" sample_world).2
       = (Returned (Some e), (setCachedReading 0 "2025-06-16" "psalm" sample_world).2)
       ∧ data e = "psalm" ∧ timestamp e = 0 ∧ date e = "2025-06-16".
Proof.
  apply (put_get_roundtrip 0 3600000 "2025-06-16" "psalm" sample_world).
  vm_compute. discriminate.
Defined.

(** ** Clearing *)

Section Clear.

Variable header_error : string → string → string.
Variable API_KEY : string.
Variable upstream : Url → FetchOutcome.

Lemma server_fetch_clear now later req w :
  pathname req = "/cache/clear" → method req = "POST" →
  server_fetch header_error API_KEY upstream now later req w
  = (Returned (Response_json (JObj [("message", JStr "Cache cleared")])
                 200 (addCorsHeaders [])),
     mkWorld ∅ (outbound w)).
Proof.
  intros Hp Hm. unfold server_fetch.
  rewrite decide_False by (rewrite Hm; discriminate).
  rewrite decide_False by (rewrite Hp; discriminate).
  rewrite decide_False by (rewrite Hp; discriminate).
  rewrite decide_False by (rewrite Hp; discriminate).
  by rewrite decide_True.
Qed.

(** C9. A POST to [/cache/clear] empties the map, all of it: afterwards
    a lookup of any key, at any instant, reports absent (so in
    particular for the keys that were present), and both the statistics
    and the health answers report size 0, the statistics with no entry. *)
Theorem clear_spec (now later : Z) (req : Request) (w : World) :
  pathname req = "/cache/clear" → method req = "POST" →
  ∃ resp w',
    server_fetch header_error API_KEY upstream now later req w = (Returned resp, w')
    ∧ status resp = 200
    ∧ cache w' = ∅
    ∧ (∀ k t, getCachedReading t k w' = (Returned None, w'))
    ∧ (∀ t, cache_stats t w'
            = (Returned (JObj [("size", JNum 0); ("ttlMs", JNum CACHE_TTL_MS);
                               ("entries", JArr [])]), w'))
    ∧ (∀ t t' req', method req' ≠ "OPTIONS" → pathname req' = "/cache/stats" →
         server_fetch header_error API_KEY upstream t t' req' w'
         = (Returned (Response_json
                        (JObj [("size", JNum 0); ("ttlMs", JNum CACHE_TTL_MS);
                               ("entries", JArr [])])
                        200 (addCorsHeaders [])), w')).
Proof.
  intros Hp Hm. rewrite server_fetch_clear by done.
  eexists _, _. split; [reflexivity |]. simpl.
  split; [done |]. split; [done |]. split.
  - intros k t. by apply getCachedReading_absent.
  - split.
    + intros t. rewrite cache_stats_run. simpl.
      by rewrite map_size_empty, map_to_list_empty.
    + intros t t' req' Hm' Hp'. rewrite server_fetch_stats by done. simpl.
      by rewrite map_size_empty, map_to_list_empty.
Qed.

End Clear.

Lemma clear_spec_witness :
  ∃ resp w',
    server_fetch sample_header_error "k" upstream_503 10 20 clear_request sample_world
    = (Returned resp, w')
    ∧ cache w' = ∅
    ∧ getCachedReading 10 "2025-06-15" w' = (Returned None, w').
Proof.
  destruct (clear_spec sample_header_error "k" upstream_503 10 20 clear_request sample_world)
    as (resp & w' & Hrun & _ & Hempty & Hget & _); [reflexivity | reflexivity |].
  exists resp, w'. split; [exact Hrun |]. split; [exact Hempty |].
  apply Hget.
Defined.

(** ** Dates *)

Lemma digit_not_T (n : Z) : digit n ≠ "T"%char.
Proof.
  unfold digit.
  pose proof (Z.mod_pos_bound n 10) as Hmod.
  assert (Z.to_nat (n mod 10) < 10)%nat as Hlt by lia.
  destruct (Z.to_nat (n mod 10)) as [| k]; [done |].
  do 9 (destruct k as [| k]; [done |]). lia.
Qed.

Lemma no_char_app c (a b : string) :
  no_char c a → no_char c b → no_char c (a +:+ b).
Proof.
  intros Ha Hb. induction a as [| x a IH]; [done |].
  rewrite append_cons. destruct Ha as [Hx Ha]. split; [done | by apply IH].
Qed.

Lemma no_T_pad (width : nat) (n : Z) : no_char "T" (pad width n).
Proof.
  revert n. induction width as [| width IH]; intros n; [done |].
  simpl. apply no_char_app; [apply IH |].
  split; [apply digit_not_T | done].
Qed.

Lemma pad_length (width : nat) (n : Z) : String.length (pad width n) = width.
Proof.
  revert n. induction width as [| width IH]; intros n; [done |].
  simpl. rewrite append_length, IH. simpl. lia.
Qed.

Lemma no_T_iso_year (y : Z) : no_char "T" (iso_year y).
Proof.
  unfold iso_year. destruct (_ && _); [apply no_T_pad |].
  apply no_char_app; [| apply no_T_pad].
  by destruct (y <? 0); (split; [| done]).
Qed.

Lemma no_T_iso_date (t : Z) : no_char "T" (iso_date t).
Proof.
  assert (no_char "T" "-") as Hdash by (by split).
  unfold iso_date. destruct (civil_from_days _) as [[y m] d].
  apply no_char_app; [apply no_T_iso_year |].
  apply no_char_app; [exact Hdash |].
  apply no_char_app; [apply no_T_pad |].
  apply no_char_app; [exact Hdash | apply no_T_pad].
Qed.

Lemma split_head_app sep (a b : string) :
  no_char sep a → split_head sep (a +:+ String sep b) = a.
Proof.
  intros Ha. induction a as [| x a IH].
  - simpl. by rewrite decide_True.
  - destruct Ha as [Hx Ha]. rewrite append_cons. simpl.
    rewrite decide_False by done. by rewrite IH.
Qed.

(** [getTodayDate] is the date part of the ISO rendering. *)
Lemma getTodayDate_iso_date (now : Z) : getTodayDate now = iso_date now.
Proof.
  unfold getTodayDate, toISOString.
  change (iso_date now +:+ "T" +:+ iso_time now +:+ "Z")
    with (iso_date now +:+ String "T" (iso_time now +:+ "Z")).
  apply split_head_app, no_T_iso_date.
Qed.

Lemma iso_year_length (y : Z) :
  String.length (iso_year y) = if (0 <=? y) && (y <=? 9999) then 4%nat else 7%nat.
Proof.
  unfold iso_year. destruct (_ && _); [apply pad_length |].
  rewrite append_length, pad_length. by destruct (y <? 0).
Qed.

Lemma getTodayDate_nonempty (now : Z) : getTodayDate now ≠ "".
Proof.
  rewrite getTodayDate_iso_date. unfold iso_date.
  destruct (civil_from_days _) as [[y m] d].
  intros Hempty. apply (f_equal String.length) in Hempty.
  rewrite !append_length, iso_year_length in Hempty.
  destruct (_ && _); simpl in Hempty; lia.
Qed.

(** The month and the day of [civil_from_days] are a month and a day. *)
Lemma civil_from_days_bounds (day : Z) :
  1 ≤ (civil_from_days day).1.2 ≤ 12 ∧ 1 ≤ (civil_from_days day).2 ≤ 31.
Proof.
  cbv beta zeta iota delta [fst snd civil_from_days].
  set (z := day + 719468). set (era := z / 146097).
  set (doe := z - era * 146097).
  assert (0 ≤ doe ≤ 146096) as Hdoe
    by (subst doe era; Z.to_euclidean_division_equations; lia).
  clearbody doe. clear z era.
  set (yoe := (doe - doe / 1460 + doe / 36524 - doe / 146096) / 365).
  set (doy := doe - (365 * yoe + yoe / 4 - yoe / 100)).
  assert (0 ≤ doy ≤ 365) as Hdoy
    by (subst doy yoe; Z.to_euclidean_division_equations; lia).
  clearbody doy. clear Hdoe.
  set (mp := (5 * doy + 2) / 153).
  assert (0 ≤ mp ≤ 11) by (subst mp; Z.to_euclidean_division_equations; lia).
  assert (1 ≤ doy - (153 * mp + 2) / 5 + 1 ≤ 31)
    by (subst mp; Z.to_euclidean_division_equations; lia).
  destruct (Z.ltb_spec mp 10); lia.
Qed.

(** From 0000-01-01 to 9999-12-31 the year has four digits. *)
Lemma civil_from_days_year (day : Z) :
  -719528 ≤ day ≤ 2932896 → 0 ≤ (civil_from_days day).1.1 ≤ 9999.
Proof.
  intros Hday. cbv beta zeta iota delta [fst snd civil_from_days].
  set (z := day + 719468). set (era := z / 146097).
  set (doe := z - era * 146097).
  assert (0 ≤ doe ≤ 146096 ∧ -1 ≤ era ≤ 24
          ∧ (era = -1 → 146037 ≤ doe) ∧ (era = 24 → doe ≤ 146036))
    as (Hdoe & Hera & Hlo & Hhi)
    by (subst doe era z; Z.to_euclidean_division_equations; lia).
  clearbody doe era. clear z Hday.
  set (yoe := (doe - doe / 1460 + doe / 36524 - doe / 146096) / 365).
  set (doy := doe - (365 * yoe + yoe / 4 - yoe / 100)).
  assert (0 ≤ yoe ≤ 399 ∧ 0 ≤ doy ≤ 365
          ∧ (146037 ≤ doe → yoe = 399 ∧ 306 ≤ doy)
          ∧ (doe ≤ 146036 → yoe < 399 ∨ doy < 306))
    as (Hyoe & Hdoy & Hlo' & Hhi')
    by (subst doy yoe; Z.to_euclidean_division_equations; lia).
  clearbody doy yoe.
  set (mp := (5 * doy + 2) / 153).
  assert (0 ≤ mp ≤ 11 ∧ (306 ≤ doy ↔ 10 ≤ mp)) as [Hmp Hmp']
    by (subst mp; Z.to_euclidean_division_equations; lia).
  clearbody mp.
  destruct (Z.ltb_spec mp 10); destruct (Z.leb_spec (mp + 3) 2);
    destruct (Z.leb_spec (mp - 9) 2); lia.
Qed.

(** The civil date that [civil_from_days] gives for a day number is a
    date whose day number, by the usual count of days, is that number. *)
Lemma days_from_civil_from_days (day : Z) :
  let '(y, m, d) := civil_from_days day in days_from_civil y m d = day.
Proof.
  unfold civil_from_days.
  set (z := day + 719468). set (era := z / 146097).
  set (doe := z - era * 146097).
  assert (0 ≤ doe ≤ 146096) as Hdoe
    by (subst doe era; Z.to_euclidean_division_equations; lia).
  assert (day = era * 146097 + doe - 719468) as Hday by (subst doe z; lia).
  clearbody doe era. clear z.
  set (yoe := (doe - doe / 1460 + doe / 36524 - doe / 146096) / 365).
  set (doy := doe - (365 * yoe + yoe / 4 - yoe / 100)).
  assert (0 ≤ yoe ≤ 399 ∧ 0 ≤ doy ≤ 365) as [Hyoe Hdoy]
    by (subst doy yoe; Z.to_euclidean_division_equations; lia).
  assert (doe = yoe * 365 + yoe / 4 - yoe / 100 + doy) as Hdoe'
    by (subst doy; lia).
  clearbody doy yoe.
  set (mp := (5 * doy + 2) / 153).
  assert (0 ≤ mp ≤ 11) as Hmp
    by (subst mp; Z.to_euclidean_division_equations; lia).
  clearbody mp. unfold days_from_civil.
  assert ((yoe + era * 400) / 400 = era) as Hera
    by (Z.to_euclidean_division_equations; lia).
  destruct (Z.ltb_spec mp 10).
  - rewrite (proj2 (Z.leb_gt (mp + 3) 2)) by lia.
    rewrite (proj2 (Z.ltb_lt 2 (mp + 3))) by lia.
    replace (mp + 3 - 3) with mp by lia.
    replace (yoe + era * 400 + 0) with (yoe + era * 400) by lia.
    rewrite Hera.
    replace (yoe + era * 400 - era * 400) with yoe by lia. lia.
  - rewrite (proj2 (Z.leb_le (mp - 9) 2)) by lia.
    rewrite (proj2 (Z.ltb_ge 2 (mp - 9))) by lia.
    replace (mp - 9 + 9) with mp by lia.
    replace (yoe + era * 400 + 1 - 1) with (yoe + era * 400) by lia.
    rewrite Hera.
    replace (yoe + era * 400 - era * 400) with yoe by lia. lia.
Qed.

Example toISOString_epoch : toISOString 0 = "1970-01-01T00:00:00.000Z".
Proof. reflexivity. Qed.

Example toISOString_leap_day :
  toISOString 1709251199999 = "2024-02-29T23:59:59.999Z".
Proof. reflexivity. Qed.

Example getTodayDate_sample : getTodayDate 1749988800123 = "2025-06-15".
Proof. reflexivity. Qed.

(** In the years 0000 to 9999, [getTodayDate] is [YYYY-MM-DD]. *)
Lemma getTodayDate_form (now : Z) :
  -62167219200000 ≤ now ≤ 253402300799999 →
  ∃ y m d,
    civil_from_days (now / msPerDay) = (y, m, d)
    ∧ 0 ≤ y ≤ 9999 ∧ 1 ≤ m ≤ 12 ∧ 1 ≤ d ≤ 31
    ∧ getTodayDate now = pad 4 y +:+ "-" +:+ pad 2 m +:+ "-" +:+ pad 2 d
    ∧ String.length (getTodayDate now) = 10%nat.
Proof.
  intros Hnow.
  assert (-719528 ≤ now / msPerDay ≤ 2932896) as Hday.
  { unfold msPerDay. split.
    - apply Z.div_le_lower_bound; lia.
    - apply Z.lt_succ_r, Z.div_lt_upper_bound; lia. }
  pose proof (civil_from_days_year _ Hday) as Hy.
  pose proof (civil_from_days_bounds (now / msPerDay)) as [Hm Hd].
  rewrite getTodayDate_iso_date. unfold iso_date.
  destruct (civil_from_days (now / msPerDay)) as [[y m] d]. simpl in *.
  exists y, m, d. split; [done |]. do 3 (split; [done |]).
  assert (iso_year y = pad 4 y) as ->.
  { unfold iso_year.
    by rewrite (proj2 (Z.leb_le 0 y)), (proj2 (Z.leb_le y 9999)) by lia. }
  split; [done |].
  by rewrite !append_length, !pad_length.
Qed.

(** *** The date string against the calendar *)

(** The day that [civil_from_days] gives exists in its month. *)
Lemma civil_from_days_day_in_month (day : Z) :
  (civil_from_days day).2
  ≤ days_in_month (civil_from_days day).1.1 (civil_from_days day).1.2.
Proof.
  cbv beta zeta iota delta [fst snd civil_from_days].
  set (z := day + 719468). set (era := z / 146097).
  set (doe := z - era * 146097).
  assert (0 ≤ doe ≤ 146096) as Hdoe
    by (subst doe era; Z.to_euclidean_division_equations; lia).
  clearbody doe era. clear z.
  set (yoe := (doe - doe / 1460 + doe / 36524 - doe / 146096) / 365).
  set (doy := doe - (365 * yoe + yoe / 4 - yoe / 100)).
  assert (0 ≤ yoe ≤ 399 ∧ 0 ≤ doy ≤ 365
          ∧ (doy = 365 →
             (yoe + 1) mod 4 = 0 ∧ ((yoe + 1) mod 100 ≠ 0 ∨ yoe = 399)))
    as (Hyoe & Hdoy & Hleap)
    by (subst doy yoe; Z.to_euclidean_division_equations; lia).
  clearbody doy yoe. clear Hdoe.
  set (mp := (5 * doy + 2) / 153).
  assert (0 ≤ mp ≤ 11 ∧ 153 * mp ≤ 5 * doy + 2 < 153 * (mp + 1)) as [Hmp Hmp']
    by (subst mp; Z.to_euclidean_division_equations; lia).
  clearbody mp.
  set (q := (153 * mp + 2) / 5).
  assert (5 * q ≤ 153 * mp + 2 < 5 * q + 5) as Hq
    by (subst q; Z.to_euclidean_division_equations; lia).
  clearbody q.
  unfold days_in_month, is_leap.
  destruct (Z.eq_dec mp 11) as [-> | Hfeb].
  - assert (q = 337) as -> by lia.
    destruct (Z.eq_dec doy 365) as [-> | Hne].
    + destruct (Hleap eq_refl) as [H4 H100].
      case_tests; cbn [andb orb negb]; try lia;
        Z.to_euclidean_division_equations; lia.
    + case_tests; cbn [andb orb negb]; lia.
  - clear Hleap.
    assert (mp = 0 ∨ mp = 1 ∨ mp = 2 ∨ mp = 3 ∨ mp = 4 ∨ mp = 5 ∨ mp = 6
            ∨ mp = 7 ∨ mp = 8 ∨ mp = 9 ∨ mp = 10) as Hcases by lia.
    destruct Hcases
      as [-> | [-> | [-> | [-> | [-> | [-> | [-> | [-> | [-> | [-> | ->]]]]]]]]]];
      case_tests; cbn [andb orb negb]; lia.
Qed.

Example days_from_civil_epoch : days_from_civil 1970 1 1 = 0.
Proof. reflexivity. Qed.

Example days_from_civil_leap_day : days_from_civil 2024 2 29 = 19782.
Proof. reflexivity. Qed.

Example days_from_civil_sample : days_from_civil 2025 6 15 = 20254.
Proof. reflexivity. Qed.

Lemma digit_value_digit (n : Z) : digit_value (digit n) = Some (n mod 10).
Proof.
  unfold digit.
  pose proof (Z.mod_pos_bound n 10) as Hmod.
  assert (n mod 10 = Z.of_nat (Z.to_nat (n mod 10))) as Hk by lia.
  assert (Z.to_nat (n mod 10) < 10)%nat as Hlt by lia.
  rewrite Hk at 2.
  destruct (Z.to_nat (n mod 10)) as [| k]; [done |].
  do 9 (destruct k as [| k]; [done |]). lia.
Qed.

Lemma decimal_from_app (acc : Z) (a b : string) :
  decimal_from acc (a +:+ b)
  = match decimal_from acc a with
    | Some acc' => decimal_from acc' b
    | None => None
    end.
Proof.
  revert acc. induction a as [| c a IH]; intros acc; [done |].
  rewrite append_cons.
  change (decimal_from acc (String c (a +:+ b)))
    with (match digit_value c with
          | Some v => decimal_from (10 * acc + v) (a +:+ b)
          | None => None
          end).
  change (decimal_from acc (String c a))
    with (match digit_value c with
          | Some v => decimal_from (10 * acc + v) a
          | None => None
          end).
  destruct (digit_value c); [apply IH | done].
Qed.

(** Reading back a padded numeral gives the number. *)
Lemma decimal_pad (width : nat) (n : Z) :
  0 ≤ n < 10 ^ Z.of_nat width → decimal (pad width n) = Some n.
Proof.
  unfold decimal. revert n. induction width as [| width IH]; intros n Hn.
  - simpl in Hn. assert (n = 0) as -> by lia. done.
  - rewrite Nat2Z.inj_succ, Z.pow_succ_r in Hn by lia.
    change (pad (S width) n) with (pad width (n / 10) +:+ String (digit n) "").
    rewrite decimal_from_app, IH.
    + change (decimal_from (n / 10) (String (digit n) ""))
        with (match digit_value (digit n) with
              | Some v => Some (10 * (n / 10) + v)
              | None => None
              end).
      rewrite digit_value_digit. f_equal.
      pose proof (Z.div_mod n 10). lia.
    + split; [apply Z.div_pos; lia | apply Z.div_lt_upper_bound; lia].
Qed.

(** In the years 0000 to 9999, [getTodayDate] is four digits, a dash,
    two digits, a dash and two digits, and the three numerals are the
    year, the month and the day of a date of the calendar whose day
    number, counted from 1970-01-01, is the number of whole days in
    [now]: the current UTC date. *)
Lemma getTodayDate_calendar (now : Z) :
  -62167219200000 ≤ now ≤ 253402300799999 →
  ∃ ys ms ds y m d,
    getTodayDate now = ys +:+ "-" +:+ ms +:+ "-" +:+ ds
    ∧ String.length ys = 4%nat ∧ String.length ms = 2%nat
    ∧ String.length ds = 2%nat
    ∧ String.length (getTodayDate now) = 10%nat
    ∧ decimal ys = Some y ∧ decimal ms = Some m ∧ decimal ds = Some d
    ∧ 0 ≤ y ≤ 9999 ∧ 1 ≤ m ≤ 12 ∧ 1 ≤ d ≤ days_in_month y m
    ∧ days_from_civil y m d = now / msPerDay.
Proof.
  intros Hnow.
  destruct (getTodayDate_form now Hnow)
    as (y & m & d & Hc & Hy & Hm & Hd & Hf & Hlen).
  pose proof (civil_from_days_day_in_month (now / msPerDay)) as Hdim.
  pose proof (days_from_civil_from_days (now / msPerDay)) as Hround.
  rewrite Hc in Hdim, Hround. simpl in Hdim.
  exists (pad 4 y), (pad 2 m), (pad 2 d), y, m, d.
  split; [done |]. rewrite !pad_length.
  do 4 (split; [done |]).
  split; [apply decimal_pad; simpl; lia |].
  split; [apply decimal_pad; simpl; lia |].
  split; [apply decimal_pad; simpl; lia |].
  split; [done |]. split; [done |]. split; [lia | done].
Qed.

(** ** The resolved date *)

Lemma resolved_date_nonempty now req : resolved_date now req ≠ "".
Proof.
  unfold resolved_date, or_else.
  destruct (params_get "date" (query req)) as [s |];
    [| apply getTodayDate_nonempty].
  destruct (decide (s = "")); [apply getTodayDate_nonempty | done].
Qed.

Lemma reading_url_date API_KEY d :
  params_get "date" (searchParams (reading_url API_KEY d)) = Some d.
Proof. reflexivity. Qed.

Section ReadingFrame.

Variable header_error : string → string → string.
Variable API_KEY : string.
Variable upstream : Url → FetchOutcome.

(** The [/reading] branch touches the entry of its date only, and sends
    at most one request, for that date. *)
Lemma reading_handler_frame now later d w :
  (∀ k, k ≠ d →
     cache (reading_handler header_error API_KEY upstream now later d w).2 !! k = cache w !! k)
  ∧ (outbound (reading_handler header_error API_KEY upstream now later d w).2 = outbound w
     ∨ outbound (reading_handler header_error API_KEY upstream now later d w).2
       = outbound w ++ [reading_url API_KEY d]).
Proof.
  destruct (reading_handler_cases header_error API_KEY upstream now later d w)
    as [(e & _ & _ & ->) | [_ [(r & _ & _ & ->) | (msg & -> & _)]]]; simpl.
  - split; [done | by left].
  - split; [| by right]. intros k Hk. by apply lookup_insert_ne.
  - split; [| by right]. intros k Hk. by apply lookup_delete_ne.
Qed.

(** The [/reading] branch always answers: no throw escapes it. *)
Lemma reading_handler_returns now later d w :
  ∃ resp, (reading_handler header_error API_KEY upstream now later d w).1 = Returned resp.
Proof.
  destruct (reading_handler_cases header_error API_KEY upstream now later d w)
    as [(e & _ & _ & ->) | [_ [(r & _ & _ & ->) | (msg & -> & _)]]];
    by eexists.
Qed.

(** C10. A [/reading] request whose [date] parameter is the empty
    string is answered exactly as the same request without the
    parameter: same response, same store, same outbound request.  The
    date of both is [getTodayDate now], the date part of the UTC ISO
    rendering of the current instant, which is never empty and, in the
    years 0000 to 9999, has the form YYYY-MM-DD: ten characters, four
    digits, a dash, two digits, a dash, two digits, whose numerals are
    the year, the month and the day of the calendar date that lies
    [now / msPerDay] whole days after 1970-01-01, the current UTC
    date.  So the empty string does not become a key of the store, and
    a request sent upstream carries that date. *)
Theorem empty_date_defaults_to_today (now later : Z)
    (req_empty req_absent : Request) (w : World) :
  pathname req_empty = "/reading" → pathname req_absent = "/reading" →
  method req_empty = method req_absent →
  params_get "date" (query req_empty) = Some "" →
  params_get "date" (query req_absent) = None →
  server_fetch header_error API_KEY upstream now later req_empty w
  = server_fetch header_error API_KEY upstream now later req_absent w
  ∧ resolved_date now req_empty = getTodayDate now
  ∧ getTodayDate now = iso_date now
  ∧ getTodayDate now ≠ ""
  ∧ (cache w !! "" = None →
       cache (server_fetch header_error API_KEY upstream now later req_empty w).2 !! "" = None)
  ∧ (outbound (server_fetch header_error API_KEY upstream now later req_empty w).2 = outbound w
     ∨ ∃ url, outbound (server_fetch header_error API_KEY upstream now later req_empty w).2
              = outbound w ++ [url]
              ∧ params_get "date" (searchParams url) = Some (getTodayDate now))
  ∧ (-62167219200000 ≤ now ≤ 253402300799999 →
       ∃ y m d,
         civil_from_days (now / msPerDay) = (y, m, d)
         ∧ 0 ≤ y ≤ 9999 ∧ 1 ≤ m ≤ 12 ∧ 1 ≤ d ≤ 31
         ∧ resolved_date now req_empty
           = pad 4 y +:+ "-" +:+ pad 2 m +:+ "-" +:+ pad 2 d)
  ∧ (-62167219200000 ≤ now ≤ 253402300799999 →
       ∃ ys ms ds y m d,
         resolved_date now req_empty = ys +:+ "-" +:+ ms +:+ "-" +:+ ds
         ∧ String.length ys = 4%nat ∧ String.length ms = 2%nat
         ∧ String.length ds = 2%nat
         ∧ String.length (resolved_date now req_empty) = 10%nat
         ∧ decimal ys = Some y ∧ decimal ms = Some m ∧ decimal ds = Some d
         ∧ 0 ≤ y ≤ 9999 ∧ 1 ≤ m ≤ 12 ∧ 1 ≤ d ≤ days_in_month y m
         ∧ days_from_civil y m d = now / msPerDay).
Proof.
  intros Hp Hp' Hm Hq Hq'.
  assert (resolved_date now req_empty = getTodayDate now) as Hd
    by (unfold resolved_date; by rewrite Hq).
  assert (resolved_date now req_absent = getTodayDate now) as Hd'
    by (unfold resolved_date; by rewrite Hq').
  assert (server_fetch header_error API_KEY upstream now later req_empty w
          = if decide (method req_empty = "OPTIONS")
            then (Returned (mkResponse 204 corsHeaders BodyNull), w)
            else reading_handler header_error API_KEY upstream now later (getTodayDate now) w)
    as Hrun.
  { destruct (decide (method req_empty = "OPTIONS")) as [Ho | Ho].
    - unfold server_fetch. by rewrite decide_True.
    - rewrite server_fetch_reading by done. by rewrite Hd. }
  assert (server_fetch header_error API_KEY upstream now later req_absent w
          = if decide (method req_empty = "OPTIONS")
            then (Returned (mkResponse 204 corsHeaders BodyNull), w)
            else reading_handler header_error API_KEY upstream now later (getTodayDate now) w)
    as Hrun'.
  { destruct (decide (method req_empty = "OPTIONS")) as [Ho | Ho].
    - unfold server_fetch. rewrite decide_True by congruence. done.
    - rewrite server_fetch_reading by congruence. by rewrite Hd'. }
  split; [by rewrite Hrun, Hrun' |].
  split; [done |].
  split; [apply getTodayDate_iso_date |].
  split; [apply getTodayDate_nonempty |].
  pose proof (reading_handler_frame now later (getTodayDate now) w)
    as [Hframe Hout].
  rewrite Hrun. split; [| split; [| split]]; [| | | rewrite Hd; apply getTodayDate_calendar].
  - intros Hnone. destruct (decide (method req_empty = "OPTIONS")); [done |].
    rewrite Hframe; [done |].
    intros Heq. by apply (getTodayDate_nonempty now).
  - destruct (decide (method req_empty = "OPTIONS")); [by left |].
    destruct Hout as [Hout | Hout]; [by left |].
    right. eexists. split; [exact Hout | apply reading_url_date].
  - intros Hnow. rewrite Hd.
    destruct (getTodayDate_form now Hnow) as (y & m & d & Hc & Hy & Hmo & Hda & Hf & _).
    by exists y, m, d.
Qed.

End ReadingFrame.

Lemma empty_date_defaults_to_today_witness :
  server_fetch sample_header_error "k" upstream_200 1749988800123 1749988800456
    empty_date_request sample_world
  = server_fetch sample_header_error "k" upstream_200 1749988800123 1749988800456
      no_date_request sample_world
  ∧ resolved_date 1749988800123 empty_date_request = getTodayDate 1749988800123
  ∧ (∃ y m d,
       civil_from_days (1749988800123 / msPerDay) = (y, m, d)
       ∧ resolved_date 1749988800123 empty_date_request
         = pad 4 y +:+ "-" +:+ pad 2 m +:+ "-" +:+ pad 2 d)
  ∧ ∃ ys ms ds y m d,
      resolved_date 1749988800123 empty_date_request
      = ys +:+ "-" +:+ ms +:+ "-" +:+ ds
      ∧ String.length (resolved_date 1749988800123 empty_date_request) = 10%nat
      ∧ decimal ys = Some y ∧ decimal ms = Some m ∧ decimal ds = Some d
      ∧ 1 ≤ d ≤ days_in_month y m
      ∧ days_from_civil y m d = 1749988800123 / msPerDay.
Proof.
  destruct (empty_date_defaults_to_today sample_header_error "k" upstream_200
              1749988800123 1749988800456
              empty_date_request no_date_request sample_world)
    as (Hsame & Hdate & _ & _ & _ & _ & Hform & Hcal);
    [reflexivity | reflexivity | reflexivity | reflexivity | reflexivity |].
  split; [exact Hsame |]. split; [exact Hdate |]. split.
  - destruct Hform as (y & m & d & Hc & _ & _ & _ & Hf); [lia |].
    exists y, m, d. split; [exact Hc | exact Hf].
  - destruct Hcal
      as (ys & ms & ds & y & m & d & Hs & _ & _ & _ & Hl & Hy & Hm & Hd
          & _ & _ & Hdim & Hday); [lia |].
    exists ys, ms, ds, y, m, d. repeat split; try assumption; apply Hdim.
Defined.

(** * Further properties of the server *)

(** ** The router, branch by branch *)

Section Router.

Variable header_error : string → string → string.
Variable API_KEY : string.
Variable upstream : Url → FetchOutcome.

(** The run of the handler, by the branch the request selects. *)
Lemma server_fetch_branches now later req w :
  server_fetch header_error API_KEY upstream now later req w =
    if decide (method req = "OPTIONS") then (Returned preflight_response, w)
    else if decide (pathname req = "/health")
      then (Returned (health_response (size (cache w))), w)
    else if decide (pathname req = "/reading")
      then reading_handler header_error API_KEY upstream now later (resolved_date now req) w
    else if decide (pathname req = "/cache/stats")
      then (Returned (Response_json
                        (JObj [("size", JNum (Z.of_nat (size (cache w))));
                               ("ttlMs", JNum CACHE_TTL_MS);
                               ("entries",
                                JArr (stats_entry now <$> map_to_list (cache w)))])
                        200 (addCorsHeaders [])), w)
    else if decide (pathname req = "/cache/clear" ∧ method req = "POST")
      then (Returned cleared_response, mkWorld ∅ (outbound w))
    else (Returned not_found_response, w).
Proof.
  unfold server_fetch. repeat case_decide; reflexivity.
Qed.

End Router.

Section Boundary.

Variable header_error : string → string → string.
Variable API_KEY : string.
Variable upstream : Url → FetchOutcome.

(** X1. Whatever the request, the state and the behaviour of the
    upstream (an answer of any status, a rejection, a thrown value that
    is no [Error]), the handler returns a response and throws nothing;
    the status of the response is 204, 200, 404 or 500, and 500 is only
    ever the answer to a [/reading] request. *)
Theorem server_fetch_always_responds (now later : Z) (req : Request) (w : World) :
  ∃ resp w',
    server_fetch header_error API_KEY upstream now later req w = (Returned resp, w')
    ∧ (status resp = 204 ∨ status resp = 200 ∨ status resp = 404
       ∨ (status resp = 500 ∧ pathname req = "/reading")).
Proof.
  rewrite server_fetch_branches.
  destruct (decide (method req = "OPTIONS")); [eexists _, _; split; [done | by left] |].
  destruct (decide (pathname req = "/health"));
    [eexists _, _; split; [done | by right; left] |].
  destruct (decide (pathname req = "/reading")) as [Hp |].
  { destruct (reading_handler_cases header_error API_KEY upstream now later
                (resolved_date now req) w)
      as [(e & _ & _ & ->) | [_ [(r & _ & _ & ->) | (msg & -> & _)]]];
      eexists _, _; (split; [done |]); unfold reading_answer;
      try destruct (header_value _); simpl; auto. }
  destruct (decide (pathname req = "/cache/stats"));
    [eexists _, _; split; [done | by right; left] |].
  destruct (decide (pathname req = "/cache/clear" ∧ method req = "POST"));
    eexists _, _; (split; [done |]); simpl; auto.
Qed.

(** X2. When the upstream cannot be reached at all (the platform's
    [fetch] rejects) on a cache miss, the handler answers 500 with the
    message of the thrown error, or with "Unknown error" when what was
    thrown is no [Error]; nothing is written to the store, which is left
    without the key of the date, and the one request that was attempted
    is the only one. *)
Theorem rejected_fetch_is_reported (now later : Z) (req : Request) (w : World)
    (t : Thrown) :
  method req ≠ "OPTIONS" → pathname req = "/reading" →
  (getCachedReading now (resolved_date now req) w).1 = Returned None →
  upstream (reading_url API_KEY (resolved_date now req)) = Rejected t →
  ∃ w',
    server_fetch header_error API_KEY upstream now later req w
    = (Returned (error_response (thrown_message t)), w')
    ∧ status (error_response (thrown_message t)) = 500
    ∧ body (error_response (thrown_message t))
      = error_body (match t with
                    | JsError message => message
                    | JsOther => "Unknown error"
                    end)
    ∧ cache w' = delete (resolved_date now req) (cache w)
    ∧ outbound w' = outbound w ++ [reading_url API_KEY (resolved_date now req)].
Proof.
  intros Hm Hp Hmiss Hup.
  rewrite server_fetch_reading by done.
  destruct (reading_handler_cases header_error API_KEY upstream now later
              (resolved_date now req) w)
    as [(e & He & Hval & _) | [_ [(r & Hr & _) | (msg & -> & Hmsg)]]].
  - exfalso. destruct w as [c o]. simpl in *.
    rewrite (getCachedReading_valid _ _ _ e) in Hmiss by done. done.
  - congruence.
  - destruct Hmsg as [(r & Hr & _) | (t' & Ht' & ->)]; [congruence |].
    assert (t' = t) as -> by congruence.
    eexists. split; [done |]. by destruct t.
Qed.

End Boundary.

Lemma rejected_fetch_is_reported_witness :
  (∃ w', server_fetch sample_header_error "k" upstream_down 10 20 other_day_request sample_world
         = (Returned (error_response "Unable to connect"), w')
         ∧ cache w' = delete "2025-06-16" (cache sample_world))
  ∧ (∃ w', server_fetch sample_header_error "k" upstream_odd 10 20 other_day_request sample_world
           = (Returned (error_response "Unknown error"), w')
           ∧ cache w' = delete "2025-06-16" (cache sample_world)).
Proof.
  split.
  - destruct (rejected_fetch_is_reported sample_header_error "k" upstream_down 10 20
                other_day_request sample_world (JsError "Unable to connect"))
      as (w' & Hrun & _ & _ & Hc & _);
      [discriminate | reflexivity | reflexivity | reflexivity |].
    exists w'. split; [exact Hrun | exact Hc].
  - destruct (rejected_fetch_is_reported sample_header_error "k" upstream_odd 10 20
                other_day_request sample_world JsOther)
      as (w' & Hrun & _ & _ & Hc & _);
      [discriminate | reflexivity | reflexivity | reflexivity |].
    exists w'. split; [exact Hrun | exact Hc].
Defined.

(** ** Hits and misses *)

Section HitMiss.

Variable header_error : string → string → string.
Variable API_KEY : string.

(** X3. A [/reading] request for a date whose entry is within the TTL
    is answered from the store alone: the answer and the state
    afterwards are the same whatever the upstream would have done, no
    request goes out, and the store (the timestamp of the entry
    included) is untouched.  When the platform takes the entry's date
    as a header value, the answer has status 200, the stored data as
    body, [X-Cache: HIT] and, as [X-Cache-Date], that date without its
    leading and trailing whitespace; when it does not (the date holds
    NUL, CR or LF), building the response throws and the answer is the
    500 with the platform's message. *)
Theorem hit_serves_cached_copy (upstream upstream' : Url → FetchOutcome)
    (now later later' : Z) (req : Request) (w : World) (e : CacheEntry) :
  method req ≠ "OPTIONS" → pathname req = "/reading" →
  cache w !! resolved_date now req = Some e →
  now - timestamp e ≤ CACHE_TTL_MS →
  ∃ resp,
    server_fetch header_error API_KEY upstream now later req w = (Returned resp, w)
    ∧ server_fetch header_error API_KEY upstream' now later' req w
      = (Returned resp, w)
    ∧ (∀ v, header_value (date e) = Some v →
         v = normalize_value (date e)
         ∧ status resp = 200
         ∧ body resp = BodyText (data e)
         ∧ obj_get "X-Cache" (headers resp) = Some "HIT"
         ∧ obj_get "X-Cache-Date" (headers resp) = Some v
         ∧ obj_get "Content-Type" (headers resp)
           = Some "text/html; charset=utf-8")
    ∧ (header_value (date e) = None →
         status resp = 500
         ∧ body resp = error_body (header_error "X-Cache-Date" (date e))).
Proof.
  intros Hm Hp He Hval.
  assert (¬ expired now e) as Hval' by (unfold expired; lia).
  exists (reading_answer header_error "HIT" (data e) (date e)).
  rewrite !server_fetch_reading by done.
  rewrite !(reading_handler_hit _ _ _ _ _ _ _ e) by done.
  split; [done |]. split; [done |]. split.
  - intros v Hv.
    destruct (reading_answer_accepted header_error "HIT" (data e) _ _ Hv)
      as [-> ->].
    repeat split.
  - intros Hv. by rewrite reading_answer_refused.
Qed.

(** X4. A miss answered successfully by the upstream stores the body,
    stamped with the instant after the fetch, before it builds its
    response; a second request for the same date, at an instant within
    the TTL of that stamp, is served from the store: it sends nothing
    upstream (whatever the upstream would answer by then) and leaves the
    state as the first request left it.  When the platform takes the
    date as a header value, the first answer is the body with
    [X-Cache: MISS] and the second the very same body with
    [X-Cache: HIT], both with the date, without its leading and
    trailing whitespace, as [X-Cache-Date]; when it does not, both
    answers are 500, the entry being stored all the same. *)
Theorem miss_then_hit (upstream upstream2 : Url → FetchOutcome)
    (now later now2 later2 : Z) (req req2 : Request) (w : World)
    (r : UpstreamResponse) :
  method req ≠ "OPTIONS" → pathname req = "/reading" →
  method req2 ≠ "OPTIONS" → pathname req2 = "/reading" →
  resolved_date now2 req2 = resolved_date now req →
  (getCachedReading now (resolved_date now req) w).1 = Returned None →
  upstream (reading_url API_KEY (resolved_date now req)) = Responded r →
  up_ok r = true →
  now2 - later ≤ CACHE_TTL_MS →
  ∃ resp w1 resp2,
    server_fetch header_error API_KEY upstream now later req w = (Returned resp, w1)
    ∧ cache w1 !! resolved_date now req
      = Some {| data := up_text r; timestamp := later;
                date := resolved_date now req |}
    ∧ outbound w1 = outbound w ++ [reading_url API_KEY (resolved_date now req)]
    ∧ server_fetch header_error API_KEY upstream2 now2 later2 req2 w1
      = (Returned resp2, w1)
    ∧ (∀ v, header_value (resolved_date now req) = Some v →
         v = normalize_value (resolved_date now req)
         ∧ status resp = 200
         ∧ body resp = BodyText (up_text r)
         ∧ obj_get "X-Cache" (headers resp) = Some "MISS"
         ∧ obj_get "X-Cache-Date" (headers resp) = Some v
         ∧ status resp2 = 200
         ∧ body resp2 = BodyText (up_text r)
         ∧ obj_get "X-Cache" (headers resp2) = Some "HIT"
         ∧ obj_get "X-Cache-Date" (headers resp2) = Some v)
    ∧ (header_value (resolved_date now req) = None →
         status resp = 500 ∧ status resp2 = 500).
Proof.
  intros Hm Hp Hm2 Hp2 Hd Hmiss Hup Hok Hval.
  rewrite !server_fetch_reading by done.
  rewrite (reading_handler_miss_success _ _ _ _ _ _ _ r) by done.
  eexists _, _,
    (reading_answer header_error "HIT" (up_text r) (resolved_date now req)).
  split; [reflexivity |]. simpl.
  split; [apply lookup_insert_eq |]. split; [done |].
  rewrite server_fetch_reading by done. rewrite Hd. split.
  - apply (reading_handler_hit _ _ _ _ _ _ _
             {| data := up_text r; timestamp := later;
                date := resolved_date now req |}).
    + apply lookup_insert_eq.
    + unfold expired. simpl. lia.
  - split.
    + intros v Hv.
      destruct (reading_answer_accepted header_error "MISS" (up_text r) _ _ Hv)
        as [-> _].
      destruct (reading_answer_accepted header_error "HIT" (up_text r) _ _ Hv)
        as [-> ->].
      repeat split.
    + intros Hv. by rewrite !reading_answer_refused.
Qed.

(** X5. A request for a date whose entry is older than the TTL goes
    upstream again, and a successful answer replaces the stale entry:
    the entry under the date is the new body stamped with the instant
    after the fetch, every other key keeps its entry, and the number of
    entries is unchanged.  The response is the MISS with the new body
    when the platform takes the date as a header value, and the 500
    with the platform's message when it does not; the store is replaced
    either way. *)
Theorem stale_entry_is_refetched (upstream : Url → FetchOutcome)
    (now later : Z) (req : Request) (w : World) (e : CacheEntry)
    (r : UpstreamResponse) :
  method req ≠ "OPTIONS" → pathname req = "/reading" →
  cache w !! resolved_date now req = Some e →
  now - timestamp e > CACHE_TTL_MS →
  upstream (reading_url API_KEY (resolved_date now req)) = Responded r →
  up_ok r = true →
  ∃ resp w',
    server_fetch header_error API_KEY upstream now later req w = (Returned resp, w')
    ∧ cache w' !! resolved_date now req
      = Some {| data := up_text r; timestamp := later;
                date := resolved_date now req |}
    ∧ (∀ k, k ≠ resolved_date now req → cache w' !! k = cache w !! k)
    ∧ size (cache w') = size (cache w)
    ∧ outbound w' = outbound w ++ [reading_url API_KEY (resolved_date now req)]
    ∧ (∀ v, header_value (resolved_date now req) = Some v →
         resp = miss_response v (up_text r)
         ∧ v = normalize_value (resolved_date now req))
    ∧ (header_value (resolved_date now req) = None →
         resp = error_response
                  (header_error "X-Cache-Date" (resolved_date now req))).
Proof.
  intros Hm Hp He Hexp Hup Hok.
  rewrite server_fetch_reading by done.
  rewrite (reading_handler_miss_success _ _ _ _ _ _ _ r);
    [| by rewrite (getCachedReading_expired _ _ _ e) | done | done].
  eexists _, _. split; [reflexivity |]. simpl.
  split; [apply lookup_insert_eq |].
  split; [intros k Hk; by apply lookup_insert_ne |].
  split; [apply map_size_insert_Some; by rewrite He |].
  split; [done |]. split.
  - intros v Hv. by apply reading_answer_accepted.
  - intros Hv. by apply reading_answer_refused.
Qed.

End HitMiss.

Lemma hit_serves_cached_copy_witness :
  ∃ resp,
    server_fetch sample_header_error "k" upstream_503 3600000 3600500
      sample_request sample_world
    = (Returned resp, sample_world)
    ∧ server_fetch sample_header_error "k" upstream_200 3600000 3600900
        sample_request sample_world
      = (Returned resp, sample_world)
    ∧ status resp = 200
    ∧ body resp = BodyText "<html>reading</html>"
    ∧ obj_get "X-Cache" (headers resp) = Some "HIT"
    ∧ obj_get "X-Cache-Date" (headers resp) = Some "2025-06-15".
Proof.
  destruct (hit_serves_cached_copy sample_header_error "k" upstream_503
              upstream_200 3600000 3600500 3600900 sample_request sample_world
              sample_entry)
    as (resp & H1 & H2 & Hok & _);
    [discriminate | reflexivity | reflexivity | vm_compute; discriminate |].
  destruct (Hok "2025-06-15") as (_ & Hs & Hb & Hx & Hd & _); [reflexivity |].
  exists resp. repeat split; assumption.
Defined.

Lemma miss_then_hit_witness :
  ∃ resp w1 resp2,
    server_fetch sample_header_error "k" upstream_200 1000 2000
      other_day_request sample_world
    = (Returned resp, w1)
    ∧ body resp = BodyText "<html>reading</html>"
    ∧ server_fetch sample_header_error "k" upstream_down 3602000 3602500
        other_day_request w1
      = (Returned resp2, w1)
    ∧ body resp2 = BodyText "<html>reading</html>"
    ∧ obj_get "X-Cache" (headers resp2) = Some "HIT".
Proof.
  destruct (miss_then_hit sample_header_error "k" upstream_200 upstream_down
              1000 2000 3602000 3602500 other_day_request other_day_request
              sample_world reading_200)
    as (resp & w1 & resp2 & H1 & _ & _ & H2 & Hok & _);
    [discriminate | reflexivity | discriminate | reflexivity | reflexivity
    | reflexivity | reflexivity | reflexivity | vm_compute; discriminate |].
  destruct (Hok "2025-06-16") as (_ & _ & Hb & _ & _ & _ & Hb2 & Hx & _);
    [reflexivity |].
  exists resp, w1, resp2. repeat split; assumption.
Defined.

Lemma stale_entry_is_refetched_witness :
  ∃ w',
    server_fetch sample_header_error "k" upstream_200 3600001 3600700
      sample_request sample_world
    = (Returned (miss_response "2025-06-15" "<html>reading</html>"), w')
    ∧ cache w' !! "2025-06-15"
      = Some {| data := "<html>reading</html>"; timestamp := 3600700;
                date := "2025-06-15" |}
    ∧ size (cache w') = size (cache sample_world).
Proof.
  destruct (stale_entry_is_refetched sample_header_error "k" upstream_200
              3600001 3600700 sample_request sample_world sample_entry
              reading_200)
    as (resp & w' & Hrun & Hk & _ & Hsz & _ & Hok & _);
    [discriminate | reflexivity | reflexivity | vm_compute; reflexivity
    | reflexivity | reflexivity |].
  destruct (Hok "2025-06-15") as [-> _]; [reflexivity |].
  exists w'. repeat split; assumption.
Defined.

(** ** Routes that only read *)

Section Routes.

Variable header_error : string → string → string.
Variable API_KEY : string.
Variable upstream : Url → FetchOutcome.

(** X6. Only a [/reading] request and a POST to [/cache/clear] can
    change the process state: an OPTIONS request to any path (those two
    included), and any request to another path or to [/cache/clear]
    with another method, leaves the store and the list of outbound
    requests exactly as they were. *)
Theorem only_reading_and_clear_write (now later : Z) (req : Request) (w : World) :
  method req = "OPTIONS"
  ∨ (pathname req ≠ "/reading"
     ∧ ¬ (pathname req = "/cache/clear" ∧ method req = "POST")) →
  (server_fetch header_error API_KEY upstream now later req w).2 = w.
Proof.
  intros Hreq. rewrite server_fetch_branches.
  destruct (decide (method req = "OPTIONS")); [done |].
  destruct Hreq as [? | [Hp Hc]]; [done |].
  destruct (decide (pathname req = "/health")); [done |].
  rewrite decide_False by done.
  destruct (decide (pathname req = "/cache/stats")); [done |].
  by rewrite decide_False.
Qed.

(** X7. A request that matches no branch is answered 404 with the JSON
    error "Not found" and changes nothing; this includes a request to
    [/cache/clear] whose method is not POST, which does not clear the
    store. *)
Theorem unmatched_is_not_found (now later : Z) (req : Request) (w : World) :
  method req ≠ "OPTIONS" →
  pathname req ≠ "/health" → pathname req ≠ "/reading" →
  pathname req ≠ "/cache/stats" →
  pathname req ≠ "/cache/clear" ∨ method req ≠ "POST" →
  server_fetch header_error API_KEY upstream now later req w
  = (Returned (Response_json (JObj [("error", JStr "Not found")]) 404
                 (addCorsHeaders [])), w).
Proof.
  intros Hm Hh Hr Hs Hc. rewrite server_fetch_branches.
  rewrite !decide_False; [done | | done | done | done | done].
  intros [? ?]. by destruct Hc.
Qed.

(** X8. [/health] reports as [cacheSize] the number of keys in the map,
    expired entries included (no instant enters the answer), which is
    also the number of entries that [/cache/stats] lists for the same
    state; and it changes nothing. *)
Theorem health_counts_raw_entries (now later : Z) (req : Request) (w : World) :
  method req ≠ "OPTIONS" → pathname req = "/health" →
  server_fetch header_error API_KEY upstream now later req w
  = (Returned (Response_json
                 (JObj [("status", JStr "ok");
                        ("cacheSize", JNum (Z.of_nat (size (cache w))))])
                 200 (addCorsHeaders [])), w)
  ∧ (∀ now' later' req' entries n w',
       method req' ≠ "OPTIONS" → pathname req' = "/cache/stats" →
       server_fetch header_error API_KEY upstream now' later' req' w
       = (Returned (Response_json
                      (JObj [("size", JNum n); ("ttlMs", JNum CACHE_TTL_MS);
                             ("entries", JArr entries)])
                      200 (addCorsHeaders [])), w') →
       n = Z.of_nat (size (cache w)) ∧ length entries = size (cache w)).
Proof.
  intros Hm Hp. split.
  - rewrite server_fetch_branches.
    rewrite decide_False by done. by rewrite decide_True.
  - intros now' later' req' entries n w' Hm' Hp' Hrun.
    rewrite server_fetch_stats in Hrun by done.
    injection Hrun as <- <-.
    split; [done |]. by rewrite length_fmap, length_map_to_list.
Qed.

End Routes.

Lemma only_reading_and_clear_write_witness :
  (server_fetch sample_header_error "k" upstream_200 10 20
     {| method := "OPTIONS"; pathname := "/cache/clear"; query := [] |}
     sample_world).2 = sample_world
  ∧ (server_fetch sample_header_error "k" upstream_200 5000000 5000001 health_request sample_world).2
    = sample_world.
Proof.
  split.
  - apply (only_reading_and_clear_write sample_header_error "k" upstream_200 10 20
             {| method := "OPTIONS"; pathname := "/cache/clear"; query := [] |}
             sample_world).
    left. reflexivity.
  - apply (only_reading_and_clear_write sample_header_error "k" upstream_200 5000000 5000001
             health_request sample_world).
    right. split; [discriminate |]. intros [H _]. discriminate H.
Defined.

Lemma unmatched_is_not_found_witness :
  server_fetch sample_header_error "k" upstream_200 10 20 get_clear_request sample_world
  = (Returned (Response_json (JObj [("error", JStr "Not found")]) 404
                 (addCorsHeaders [])), sample_world).
Proof.
  apply (unmatched_is_not_found sample_header_error "k" upstream_200 10 20 get_clear_request sample_world);
    [discriminate | discriminate | discriminate | discriminate |].
  right. discriminate.
Defined.

Lemma health_counts_raw_entries_witness :
  server_fetch sample_header_error "k" upstream_200 5000000 5000001 health_request sample_world
  = (Returned (Response_json
                 (JObj [("status", JStr "ok");
                        ("cacheSize", JNum (Z.of_nat (size (cache sample_world))))])
                 200 (addCorsHeaders [])), sample_world).
Proof.
  apply (health_counts_raw_entries sample_header_error "k" upstream_200 5000000 5000001
           health_request sample_world);
    [discriminate | reflexivity].
Defined.

(** ** CORS headers *)

Lemma obj_get_obj_set k k' v o :
  obj_get k (obj_set k' v o) = if decide (k' = k) then Some v else obj_get k o.
Proof.
  induction o as [| [k0 v0] o IH]; simpl.
  - by destruct (decide (k' = k)).
  - destruct (decide (k0 = k')) as [-> | Hne]; simpl.
    + by destruct (decide (k' = k)).
    + destruct (decide (k0 = k)) as [-> | Hne'].
      * by rewrite decide_False by congruence.
      * exact IH.
Qed.

Lemma obj_get_app k (o1 o2 : Headers) :
  obj_get k (o1 ++ o2)
  = match obj_get k o1 with Some v => Some v | None => obj_get k o2 end.
Proof.
  induction o1 as [| [k0 v0] o1 IH]; simpl; [done |].
  by destruct (decide (k0 = k)).
Qed.

(** In [{ ...a, ...b }] a name defined by [b] has the value of its last
    definition in [b]; any other name has the value it has in [a]. *)
Lemma obj_get_spread k (a b : Headers) :
  obj_get k (spread a b)
  = match obj_get k (reverse b) with Some v => Some v | None => obj_get k a end.
Proof.
  unfold spread. revert a. induction b as [| [k0 v0] b IH]; intros a; [done |].
  simpl. rewrite IH, reverse_cons, obj_get_app, obj_get_obj_set. simpl.
  destruct (obj_get k (reverse b)); [done |].
  by destruct (decide (k0 = k)).
Qed.

Lemma obj_keys_obj_set k v o :
  obj_keys (obj_set k v o)
  = if decide (k ∈ obj_keys o) then obj_keys o else obj_keys o ++ [k].
Proof.
  unfold obj_keys. induction o as [| [k0 v0] o IH].
  - destruct (decide (k ∈ ([] : Headers).*1)) as [Hin | _]; [| done].
    by apply elem_of_nil in Hin.
  - change (obj_set k v ((k0, v0) :: o))
      with (if decide (k0 = k) then (k, v) :: o else (k0, v0) :: obj_set k v o).
    change (((k0, v0) :: o).*1) with (k0 :: o.*1).
    destruct (decide (k0 = k)) as [-> | Hne].
    + destruct (decide (k ∈ k :: o.*1)) as [_ | Hnin]; [done |].
      destruct Hnin. by left.
    + change (((k0, v0) :: obj_set k v o).*1) with (k0 :: (obj_set k v o).*1).
      rewrite IH.
      destruct (decide (k ∈ o.*1)) as [Hin | Hnin];
        destruct (decide (k ∈ k0 :: o.*1)) as [Hin' | Hnin']; try done.
      * destruct Hnin'. by right.
      * apply elem_of_cons in Hin' as [-> | Hin']; done.
Qed.

Lemma obj_keys_spread_NoDup (a b : Headers) :
  NoDup (obj_keys a) → NoDup (obj_keys (spread a b)).
Proof.
  unfold spread. revert a. induction b as [| [k0 v0] b IH]; intros a Ha; [done |].
  simpl. apply IH. rewrite obj_keys_obj_set.
  destruct (decide (k0 ∈ obj_keys a)) as [Hin | Hnin]; [done |].
  apply NoDup_app. split; [done |]. split; [| apply NoDup_singleton].
  intros x Hx ->%list_elem_of_singleton. done.
Qed.

(** X9. A header bag given to [addCorsHeaders] wins over the CORS
    defaults: every name it defines has, in the result, the value of its
    last definition in the bag, and the three CORS names it does not
    define keep their default values; no name occurs twice in the
    result. *)
Theorem addCorsHeaders_lookup (h : Headers) (k : string) :
  obj_get k (addCorsHeaders h)
  = match obj_get k (reverse h) with
    | Some v => Some v
    | None => obj_get k corsHeaders
    end
  ∧ NoDup (obj_keys (addCorsHeaders h)).
Proof.
  split; [apply obj_get_spread |].
  apply obj_keys_spread_NoDup.
  unfold obj_keys, corsHeaders. simpl.
  repeat (apply NoDup_cons; split;
          [intros Hin;
           repeat (apply elem_of_cons in Hin as [Hin | Hin]; [discriminate |]);
           by apply elem_of_nil in Hin |]).
  apply NoDup_nil_2.
Qed.

Section Cors.

Variable header_error : string → string → string.
Variable API_KEY : string.
Variable upstream : Url → FetchOutcome.

(** X10. Every response the handler returns, on every branch (the
    preflight, the 404, and the 500 of a failed fetch included), carries
    the three CORS headers with their fixed values: any origin, the five
    methods, any header. *)
Theorem every_response_has_cors (now later : Z) (req : Request) (w : World) :
  ∃ resp w',
    server_fetch header_error API_KEY upstream now later req w = (Returned resp, w')
    ∧ obj_get "Access-Control-Allow-Origin" (headers resp) = Some "*"
    ∧ obj_get "Access-Control-Allow-Methods" (headers resp)
      = Some "GET, POST, PUT, DELETE, OPTIONS"
    ∧ obj_get "Access-Control-Allow-Headers" (headers resp) = Some "*".
Proof.
  rewrite server_fetch_branches.
  destruct (decide (method req = "OPTIONS")) as [Ho | Ho]; [by eexists _, _ |].
  destruct (decide (pathname req = "/health")) as [Hh | Hh]; [by eexists _, _ |].
  destruct (decide (pathname req = "/reading")) as [Hr | Hr].
  { destruct (reading_handler_cases header_error API_KEY upstream now later
                (resolved_date now req) w)
      as [(e & _ & _ & ->) | [_ [(r & _ & _ & ->) | (msg & -> & _)]]];
      eexists _, _; (split; [done |]); unfold reading_answer;
      try destruct (header_value _); done. }
  destruct (decide (pathname req = "/cache/stats")) as [Hs | Hs];
    [by eexists _, _ |].
  destruct (decide (pathname req = "/cache/clear" ∧ method req = "POST"));
    by eexists _, _.
Qed.

End Cors.

(** ** What a request can reach *)

Section Reach.

Variable header_error : string → string → string.
Variable API_KEY : string.
Variable upstream : Url → FetchOutcome.

(** X11. Handling one request sends at most one request upstream, and
    only a [/reading] request (other than a preflight) whose lookup
    misses sends one: it goes to the fixed address, with exactly the
    parameters plan "oycb", the resolved date and the API key of the
    process, in that order. *)
Theorem at_most_one_upstream_request (now later : Z) (req : Request) (w : World) :
  outbound (server_fetch header_error API_KEY upstream now later req w).2 = outbound w
  ∨ (method req ≠ "OPTIONS" ∧ pathname req = "/reading"
     ∧ (getCachedReading now (resolved_date now req) w).1 = Returned None
     ∧ outbound (server_fetch header_error API_KEY upstream now later req w).2
       = outbound w
         ++ [ {| href := "https://api.nlt.to/api/reading";
                 searchParams := [("plan", "oycb");
                                  ("date", resolved_date now req);
                                  ("key", API_KEY)] |} ]).
Proof.
  rewrite server_fetch_branches.
  destruct (decide (method req = "OPTIONS")) as [Ho | Ho]; [by left |].
  destruct (decide (pathname req = "/health")) as [Hh | Hh]; [by left |].
  destruct (decide (pathname req = "/reading")) as [Hr | Hr].
  { destruct (reading_handler_cases header_error API_KEY upstream now later
                (resolved_date now req) w)
      as [(e & _ & _ & ->) | [Hmiss [(r & _ & _ & ->) | (msg & -> & _)]]];
      [by left | by right | by right]. }
  destruct (decide (pathname req = "/cache/stats")) as [Hs | Hs]; [by left |].
  destruct (decide (pathname req = "/cache/clear" ∧ method req = "POST"));
    by left.
Qed.

(** X12. Of the query string the handler reads the first [date]
    parameter and nothing else: two requests with the same method and
    path whose first [date] parameters agree (both missing counts) get
    the same response and leave the same state, whatever other
    parameters (a client [key], say, or a second [date]) they carry. *)
Theorem query_is_read_through_date_only (now later : Z) (req1 req2 : Request)
    (w : World) :
  method req1 = method req2 → pathname req1 = pathname req2 →
  params_get "date" (query req1) = params_get "date" (query req2) →
  server_fetch header_error API_KEY upstream now later req1 w
  = server_fetch header_error API_KEY upstream now later req2 w.
Proof.
  intros Hm Hp Hq. rewrite !server_fetch_branches.
  unfold resolved_date. by rewrite Hm, Hp, Hq.
Qed.

(** X13. A [/reading] request reads and writes the entry of its own
    date only: every other key has afterwards the entry it had before,
    whether the request hit, missed, evicted an expired entry, or
    failed. *)
Theorem reading_touches_only_its_date (now later : Z) (req : Request) (w : World)
    (k : string) :
  pathname req = "/reading" → k ≠ resolved_date now req →
  cache (server_fetch header_error API_KEY upstream now later req w).2 !! k = cache w !! k.
Proof.
  intros Hp Hk. rewrite server_fetch_branches.
  destruct (decide (method req = "OPTIONS")) as [Ho | Ho]; [done |].
  rewrite decide_False by (rewrite Hp; discriminate).
  rewrite decide_True by done.
  by apply reading_handler_frame.
Qed.

End Reach.

Lemma query_is_read_through_date_only_witness :
  server_fetch sample_header_error "k" upstream_200 3600001 3600002 keyed_request sample_world
  = server_fetch sample_header_error "k" upstream_200 3600001 3600002 sample_request sample_world.
Proof.
  apply (query_is_read_through_date_only sample_header_error "k" upstream_200 3600001 3600002
           keyed_request sample_request sample_world);
    reflexivity.
Defined.

Lemma reading_touches_only_its_date_witness :
  cache (server_fetch sample_header_error "k" upstream_200 5000000 5000001 other_day_request
           sample_world).2 !! "2025-06-15"
  = cache sample_world !! "2025-06-15".
Proof.
  apply (reading_touches_only_its_date sample_header_error "k" upstream_200 5000000 5000001
           other_day_request sample_world "2025-06-15");
    [reflexivity | discriminate].
Defined.

(** ** Counting entries *)

(** X14. How the two store functions move the number of entries: a
    write adds one when the key is new and none when it overwrites; a
    lookup takes one away when it finds an entry older than the TTL and
    none otherwise. *)
Theorem size_accounting (now : Z) (key v : string) (w : World) :
  size (cache (setCachedReading now key v w).2)
  = match cache w !! key with
    | Some _ => size (cache w)
    | None => S (size (cache w))
    end
  ∧ size (cache w)
    = match cache w !! key with
      | Some e =>
          if decide (now - timestamp e > CACHE_TTL_MS)
          then S (size (cache (getCachedReading now key w).2))
          else size (cache (getCachedReading now key w).2)
      | None => size (cache (getCachedReading now key w).2)
      end.
Proof.
  split.
  - rewrite setCachedReading_run. simpl.
    destruct (cache w !! key) as [e |] eqn:He.
    + apply map_size_insert_Some. by rewrite He.
    + by apply map_size_insert_None.
  - destruct (cache w !! key) as [e |] eqn:He.
    + destruct (decide (now - timestamp e > CACHE_TTL_MS)) as [Hexp | Hval].
      * rewrite (getCachedReading_expired _ _ _ e) by done. simpl.
        rewrite <- (insert_delete_id (cache w) key e He) at 1.
        apply map_size_insert_None, lookup_delete_eq.
      * by rewrite (getCachedReading_valid _ _ _ e).
    + by rewrite getCachedReading_absent.
Qed.

(** X15. An entry written at instant [t] and looked up at an instant
    more than the TTL after [t] is reported absent and is gone: the
    store is the one before the write without that key, so the
    statistics taken afterwards, at any instant, hold no object for the
    key and count one entry fewer than just after the write. *)
Theorem expired_write_is_evicted (t t' : Z) (k v : string) (w : World) :
  t' - t > CACHE_TTL_MS →
  ∃ w',
    getCachedReading t' k (setCachedReading t k v w).2 = (Returned None, w')
    ∧ cache w' = delete k (cache w)
    ∧ S (size (cache w')) = size (cache (setCachedReading t k v w).2)
    ∧ (∀ t'' entries,
         (cache_stats t'' w').1
         = Returned (JObj [("size", JNum (Z.of_nat (size (cache w'))));
                           ("ttlMs", JNum CACHE_TTL_MS);
                           ("entries", JArr entries)]) →
         ∀ e, stats_entry t'' (k, e) ∉ entries).
Proof.
  intros Hexp. rewrite setCachedReading_run. simpl.
  eexists. split.
  - apply (getCachedReading_expired _ _ _
             {| data := v; timestamp := t; date := k |});
      [apply lookup_insert_eq | done].
  - simpl. rewrite delete_insert_eq. split; [done |]. split.
    + rewrite <- (insert_delete_eq (cache w)).
      symmetry. apply map_size_insert_None, lookup_delete_eq.
    + intros t'' entries Hstats e Hin.
      cbv [cache_stats bind cache_entries cache_size ret fst cache] in Hstats.
      injection Hstats as <-.
      apply list_elem_of_fmap in Hin as ([k' e'] & Heq & Hin).
      injection Heq as <- _ _.
      apply elem_of_map_to_list in Hin.
      by rewrite lookup_delete_eq in Hin.
Qed.

Lemma expired_write_is_evicted_witness :
  ∃ w',
    getCachedReading 3600001 "2025-06-16"
      (setCachedReading 0 "2025-06-16" "psalm" sample_world).2
    = (Returned None, w')
    ∧ cache w' = delete "2025-06-16" (cache sample_world).
Proof.
  destruct (expired_write_is_evicted 0 3600001 "2025-06-16" "psalm" sample_world)
    as (w' & Hget & Hc & _); [vm_compute; reflexivity |].
  exists w'. split; [exact Hget | exact Hc].
Defined.

(** X16. A lookup never adds or alters an entry (what the store holds
    afterwards, it held before, under the same key), never throws, and
    repeating it at the same instant gives the same answer and changes
    nothing more. *)
Theorem lookup_only_shrinks (now : Z) (key : string) (w : World) :
  ∃ r w',
    getCachedReading now key w = (Returned r, w')
    ∧ cache w' ⊆ cache w
    ∧ outbound w' = outbound w
    ∧ getCachedReading now key w' = (Returned r, w').
Proof.
  destruct (cache w !! key) as [e |] eqn:He.
  - destruct (decide (expired now e)) as [Hexp | Hval].
    + rewrite (getCachedReading_expired _ _ _ e) by done.
      eexists _, _. split; [done |]. simpl.
      split; [apply delete_subseteq |]. split; [done |].
      apply getCachedReading_absent. simpl. apply lookup_delete_eq.
    + rewrite (getCachedReading_valid _ _ _ e) by done.
      eexists _, _. split; [done |]. split; [done |]. split; [done |].
      by apply getCachedReading_valid.
  - rewrite getCachedReading_absent by done.
    eexists _, _. split; [done |]. split; [done |]. split; [done |].
    by apply getCachedReading_absent.
Qed.

(** ** Invariants of a running process *)

Section Running.

Variable header_error : string → string → string.
Variable API_KEY : string.

(** An entry present after one request was there before, or is the
    successful answer of the upstream to that request. *)
Lemma server_fetch_cache_step upstream now later req w k e :
  cache (server_fetch header_error API_KEY upstream now later req w).2 !! k = Some e →
  cache w !! k = Some e
  ∨ (k = resolved_date now req
     ∧ ∃ r, upstream (reading_url API_KEY k) = Responded r ∧ up_ok r = true
            ∧ e = {| data := up_text r; timestamp := later; date := k |}).
Proof.
  rewrite server_fetch_branches.
  destruct (decide (method req = "OPTIONS")) as [Ho | Ho]; [by left |].
  destruct (decide (pathname req = "/health")) as [Hh | Hh]; [by left |].
  destruct (decide (pathname req = "/reading")) as [Hr | Hr].
  { destruct (reading_handler_cases header_error API_KEY upstream now later
                (resolved_date now req) w)
      as [(e' & _ & _ & ->) | [_ [(r & Hup & Hok & ->) | (msg & -> & _)]]];
      simpl.
    - by left.
    - destruct (decide (k = resolved_date now req)) as [-> | Hne].
      + rewrite lookup_insert_eq. intros [= <-]. right. split; [done |].
        by exists r.
      + rewrite lookup_insert_ne by done. by left.
    - intros Hk. left.
      destruct (decide (k = resolved_date now req)) as [-> | Hne].
      + by rewrite lookup_delete_eq in Hk.
      + by rewrite lookup_delete_ne in Hk. }
  destruct (decide (pathname req = "/cache/stats")) as [Hs | Hs]; [by left |].
  destruct (decide (pathname req = "/cache/clear" ∧ method req = "POST"));
    [| by left].
  simpl. by rewrite lookup_empty.
Qed.

Lemma server_fetch_outbound_step upstream now later req w :
  outbound (server_fetch header_error API_KEY upstream now later req w).2 = outbound w
  ∨ outbound (server_fetch header_error API_KEY upstream now later req w).2
    = outbound w ++ [reading_url API_KEY (resolved_date now req)].
Proof.
  rewrite server_fetch_branches.
  destruct (decide (method req = "OPTIONS")) as [Ho | Ho]; [by left |].
  destruct (decide (pathname req = "/health")) as [Hh | Hh]; [by left |].
  destruct (decide (pathname req = "/reading")) as [Hr | Hr];
    [apply reading_handler_frame |].
  destruct (decide (pathname req = "/cache/stats")) as [Hs | Hs]; [by left |].
  destruct (decide (pathname req = "/cache/clear" ∧ method req = "POST"));
    by left.
Qed.

Lemma serve_all_cache (steps before : list Step) (w : World) :
  (∀ k e, cache w !! k = Some e → k ≠ "" ∧ fetched_in API_KEY before k e) →
  ∀ k e, cache (serve_all header_error API_KEY steps w) !! k = Some e →
         k ≠ "" ∧ fetched_in API_KEY (before ++ steps) k e.
Proof.
  revert before w. induction steps as [| s steps IH]; intros before w Hw k e.
  - simpl. rewrite app_nil_r. apply Hw.
  - simpl. replace (before ++ s :: steps) with ((before ++ [s]) ++ steps)
      by (by rewrite <- app_assoc).
    apply IH. clear k e. intros k e Hk.
    apply server_fetch_cache_step in Hk as [Hk | (-> & r & Hup & Hok & ->)].
    + destruct (Hw k e Hk) as (Hne & s' & r & Hin & Hup & Hok & He).
      split; [done |]. exists s', r. split; [| done].
      apply elem_of_app. by left.
    + split; [apply resolved_date_nonempty |].
      exists s, r. split; [| done].
      apply elem_of_app. right. by apply list_elem_of_singleton.
Qed.

Lemma serve_all_outbound (steps : list Step) (w : World) :
  (∀ url, url ∈ outbound w → ∃ d, d ≠ "" ∧ url = reading_url API_KEY d) →
  (length (outbound (serve_all header_error API_KEY steps w))
   ≤ length (outbound w) + length steps)%nat
  ∧ ∀ url, url ∈ outbound (serve_all header_error API_KEY steps w) →
           ∃ d, d ≠ "" ∧ url = reading_url API_KEY d.
Proof.
  revert w. induction steps as [| s steps IH]; intros w Hw.
  - simpl. split; [lia | done].
  - simpl.
    destruct (server_fetch_outbound_step (step_upstream s) (step_now s)
                (step_later s) (step_req s) w) as [Hout | Hout].
    + destruct (IH (server_fetch header_error API_KEY (step_upstream s) (step_now s)
                      (step_later s) (step_req s) w).2) as [Hlen Hall].
      * by rewrite Hout.
      * rewrite Hout in Hlen. split; [lia | done].
    + destruct (IH (server_fetch header_error API_KEY (step_upstream s) (step_now s)
                      (step_later s) (step_req s) w).2) as [Hlen Hall].
      * rewrite Hout. intros url [Hin | ->%list_elem_of_singleton]%elem_of_app.
        -- by apply Hw.
        -- eexists. split; [apply resolved_date_nonempty | done].
      * rewrite Hout, length_app in Hlen. simpl in Hlen. split; [lia | done].
Qed.

(** X17. In a process that started with an empty store and has handled
    any sequence of requests (whatever the upstream did and the clock
    showed during each), every entry of the store is under a non-empty
    key, has that key as its [date], and holds the body of a success
    answer that the upstream gave, during one of those requests, to the
    request for that very date, stamped with the instant after that
    fetch: failures and foreign dates never get into the store. *)
Theorem store_holds_only_fetched_readings (steps : list Step) (k : string)
    (e : CacheEntry) :
  cache (serve_all header_error API_KEY steps initial_world) !! k = Some e →
  k ≠ "" ∧ date e = k
  ∧ ∃ s r, s ∈ steps
           ∧ step_upstream s (reading_url API_KEY k) = Responded r
           ∧ 200 ≤ up_status r ≤ 299
           ∧ data e = up_text r
           ∧ timestamp e = step_later s.
Proof.
  intros Hk.
  destruct (serve_all_cache steps [] initial_world) with (k := k) (e := e)
    as (Hne & s & r & Hin & Hup & Hok & ->); [| done |].
  { intros k' e'. simpl. by rewrite lookup_empty. }
  split; [done |]. split; [done |].
  exists s, r. split; [done |]. split; [done |]. split; [| done].
  unfold up_ok in Hok. apply andb_true_iff in Hok as [H1 H2]. lia.
Qed.

(** X18. A process that has handled [n] requests has sent at most [n]
    requests upstream, each of them to the reading address with plan
    "oycb", a non-empty date and the API key of the process. *)
Theorem upstream_requests_are_bounded (steps : list Step) :
  (length (outbound (serve_all header_error API_KEY steps initial_world)) ≤ length steps)%nat
  ∧ ∀ url, url ∈ outbound (serve_all header_error API_KEY steps initial_world) →
           ∃ d, d ≠ ""
                ∧ url = {| href := "https://api.nlt.to/api/reading";
                           searchParams := [("plan", "oycb"); ("date", d);
                                            ("key", API_KEY)] |}.
Proof.
  destruct (serve_all_outbound steps initial_world) as [Hlen Hall].
  - intros url Hin. by apply elem_of_nil in Hin.
  - split; [exact Hlen | exact Hall].
Qed.

End Running.

Lemma store_holds_only_fetched_readings_witness :
  cache (serve_all sample_header_error "k" sample_steps initial_world) !! "2025-06-15"
  = Some {| data := "<html>reading</html>"; timestamp := 2500;
            date := "2025-06-15" |}
  ∧ ∃ s r, s ∈ sample_steps
           ∧ step_upstream s (reading_url "k" "2025-06-15") = Responded r
           ∧ 200 ≤ up_status r ≤ 299
           ∧ "<html>reading</html>" = up_text r
           ∧ 2500 = step_later s.
Proof.
  split; [reflexivity |].
  destruct (store_holds_only_fetched_readings sample_header_error "k" sample_steps "2025-06-15"
              {| data := "<html>reading</html>"; timestamp := 2500;
                 date := "2025-06-15" |})
    as (_ & _ & H); [reflexivity |].
  exact H.
Defined.

(** ** The date key and the UTC day *)

Lemma append_snoc_inj (a b : string) (x y : ascii) :
  a +:+ String x "" = b +:+ String y "" → a = b ∧ x = y.
Proof.
  revert b. induction a as [| c a IH]; intros [| c' b] Heq.
  - by injection Heq as ->.
  - rewrite append_cons in Heq. injection Heq as _ Heq.
    by destruct b.
  - rewrite append_cons in Heq. injection Heq as _ Heq.
    by destruct a.
  - rewrite !append_cons in Heq. injection Heq as -> Heq.
    destruct (IH b Heq) as [-> ->]. done.
Qed.

Lemma append_inj_length (a a' b b' : string) :
  String.length a = String.length a' →
  a +:+ b = a' +:+ b' → a = a' ∧ b = b'.
Proof.
  revert a'. induction a as [| c a IH]; intros [| c' a'] Hlen Heq;
    try discriminate.
  - done.
  - rewrite !append_cons in Heq. injection Heq as -> Heq.
    injection Hlen as Hlen. destruct (IH a' Hlen Heq) as [-> ->]. done.
Qed.

Lemma digit_inj (a b : Z) : digit a = digit b → a mod 10 = b mod 10.
Proof.
  unfold digit. intros Heq.
  pose proof (Z.mod_pos_bound a 10) as Ha.
  pose proof (Z.mod_pos_bound b 10) as Hb.
  apply (f_equal nat_of_ascii) in Heq.
  rewrite !nat_ascii_embedding in Heq by lia. lia.
Qed.

Lemma pad_inj (width : nat) (a b : Z) :
  0 ≤ a < 10 ^ Z.of_nat width → 0 ≤ b < 10 ^ Z.of_nat width →
  pad width a = pad width b → a = b.
Proof.
  revert a b. induction width as [| width IH]; intros a b Ha Hb Heq.
  - simpl in Ha, Hb. lia.
  - rewrite Nat2Z.inj_succ, Z.pow_succ_r in Ha, Hb by lia.
    simpl in Heq. apply append_snoc_inj in Heq as [Heq Hd].
    apply digit_inj in Hd.
    assert (a / 10 = b / 10) as Hq.
    { apply IH; [| | done]; split;
        try (apply Z.div_pos; lia); apply Z.div_lt_upper_bound; lia. }
    pose proof (Z.div_mod a 10). pose proof (Z.div_mod b 10). lia.
Qed.

(** X19. For instants in the years 0000 to 9999, [getTodayDate] names
    the UTC day and nothing else: two instants give the same string
    exactly when they fall on the same UTC day (the same number of whole
    days since the epoch), whatever the time of day.  So requests
    without a [date] share a cache key within a UTC day and never across
    two. *)
Theorem getTodayDate_names_the_day (t1 t2 : Z) :
  -62167219200000 ≤ t1 ≤ 253402300799999 →
  -62167219200000 ≤ t2 ≤ 253402300799999 →
  (getTodayDate t1 = getTodayDate t2 ↔ t1 / msPerDay = t2 / msPerDay)
  ∧ (∀ req1 req2,
       params_get "date" (query req1) = None →
       params_get "date" (query req2) = None →
       (resolved_date t1 req1 = resolved_date t2 req2
        ↔ t1 / msPerDay = t2 / msPerDay)).
Proof.
  intros H1 H2.
  assert (getTodayDate t1 = getTodayDate t2 ↔ t1 / msPerDay = t2 / msPerDay)
    as Hiff.
  { split.
    - intros Heq.
      destruct (getTodayDate_form t1 H1)
        as (y1 & m1 & d1 & Hc1 & Hy1 & Hm1 & Hd1 & Hf1 & _).
      destruct (getTodayDate_form t2 H2)
        as (y2 & m2 & d2 & Hc2 & Hy2 & Hm2 & Hd2 & Hf2 & _).
      rewrite Hf1, Hf2 in Heq.
      apply append_inj_length in Heq as [Hy Heq];
        [| by rewrite !pad_length].
      apply (append_inj_length "-" "-") in Heq as [_ Heq]; [| done].
      apply append_inj_length in Heq as [Hm Heq];
        [| by rewrite !pad_length].
      apply (append_inj_length "-" "-") in Heq as [_ Hd]; [| done].
      apply pad_inj in Hy; [| simpl; lia | simpl; lia].
      apply pad_inj in Hm; [| simpl; lia | simpl; lia].
      apply pad_inj in Hd; [| simpl; lia | simpl; lia].
      subst y2 m2 d2.
      pose proof (days_from_civil_from_days (t1 / msPerDay)) as R1.
      pose proof (days_from_civil_from_days (t2 / msPerDay)) as R2.
      rewrite Hc1 in R1. rewrite Hc2 in R2. congruence.
    - intros Heq. rewrite !getTodayDate_iso_date. unfold iso_date.
      by rewrite Heq. }
  split; [exact Hiff |].
  intros req1 req2 Hq1 Hq2. unfold resolved_date. by rewrite Hq1, Hq2.
Qed.

Lemma getTodayDate_names_the_day_witness :
  (getTodayDate 1749945600000 = getTodayDate 1750031999999
   ↔ 1749945600000 / msPerDay = 1750031999999 / msPerDay)
  ∧ (getTodayDate 1750031999999 = getTodayDate 1750032000000
     ↔ 1750031999999 / msPerDay = 1750032000000 / msPerDay).
Proof.
  split.
  - apply (getTodayDate_names_the_day 1749945600000 1750031999999); lia.
  - apply (getTodayDate_names_the_day 1750031999999 1750032000000); lia.
Defined.

(** ** Plain header values *)

Lemma string_forall_app P (a b : string) :
  string_forall P (a +:+ b) = string_forall P a && string_forall P b.
Proof.
  induction a as [| c a IH]; [done |].
  rewrite append_cons. simpl. by rewrite IH, andb_assoc.
Qed.

Lemma string_forall_rev_app P (a b : string) :
  string_forall P (String.rev_app a b) = string_forall P a && string_forall P b.
Proof.
  revert b. induction a as [| c a IH]; intros b; [done |].
  simpl. rewrite IH. simpl.
  by destruct (P c), (string_forall P a), (string_forall P b).
Qed.

Lemma rev_app_rev_app (a b c : string) :
  String.rev_app (String.rev_app a b) c = String.rev_app b (a +:+ c).
Proof.
  revert b c. induction a as [| x a IH]; intros b c; [done |].
  simpl. rewrite IH. simpl. by rewrite append_cons.
Qed.

Lemma rev_rev (a : string) : String.rev (String.rev a) = a.
Proof.
  unfold String.rev. rewrite rev_app_rev_app. simpl. apply append_nil_r.
Qed.

Lemma trim_start_plain (s : string) :
  string_forall plain_char s = true → trim_start s = s.
Proof.
  destruct s as [| c s]; [done |]. simpl. unfold plain_char.
  intros [[Hc _]%andb_true_iff _]%andb_true_iff.
  by destruct (http_whitespace c).
Qed.

Lemma value_allowed_plain (s : string) :
  string_forall plain_char s = true → value_allowed s = true.
Proof.
  induction s as [| c s IH]; [done |]. simpl. unfold plain_char.
  intros [[_ Hc]%andb_true_iff Hs]%andb_true_iff.
  rewrite Hc. by apply IH.
Qed.

(** A value made of plain characters is taken by [Headers] as it is. *)
Lemma header_value_plain (s : string) :
  string_forall plain_char s = true → header_value s = Some s.
Proof.
  intros Hs.
  assert (normalize_value s = s) as Hn.
  { unfold normalize_value, trim_end. rewrite (trim_start_plain s Hs).
    rewrite trim_start_plain; [apply rev_rev |].
    unfold String.rev. rewrite string_forall_rev_app, Hs. done. }
  unfold header_value. rewrite Hn. by rewrite value_allowed_plain.
Qed.

Lemma plain_digit (n : Z) : plain_char (digit n) = true.
Proof.
  unfold digit.
  pose proof (Z.mod_pos_bound n 10) as Hmod.
  assert (Z.to_nat (n mod 10) < 10)%nat as Hlt by lia.
  destruct (Z.to_nat (n mod 10)) as [| k]; [done |].
  do 9 (destruct k as [| k]; [done |]). lia.
Qed.

Lemma plain_pad (width : nat) (n : Z) :
  string_forall plain_char (pad width n) = true.
Proof.
  revert n. induction width as [| width IH]; intros n; [done |].
  simpl. rewrite string_forall_app, IH.
  change (string_forall plain_char (String (digit n) ""))
    with (plain_char (digit n) && true).
  by rewrite plain_digit.
Qed.

Lemma plain_iso_date (t : Z) : string_forall plain_char (iso_date t) = true.
Proof.
  unfold iso_date. destruct (civil_from_days _) as [[y m] d].
  rewrite !string_forall_app, !plain_pad.
  assert (string_forall plain_char (iso_year y) = true) as ->; [| done].
  unfold iso_year. destruct (_ && _); [apply plain_pad |].
  rewrite string_forall_app, plain_pad. by destruct (y <? 0).
Qed.

(** The date of today is always taken as it is. *)
Lemma header_value_getTodayDate (now : Z) :
  header_value (getTodayDate now) = Some (getTodayDate now).
Proof.
  rewrite getTodayDate_iso_date. apply header_value_plain, plain_iso_date.
Qed.

Lemma normalize_value_getTodayDate (now : Z) :
  normalize_value (getTodayDate now) = getTodayDate now.
Proof.
  symmetry. apply header_value_Some, header_value_getTodayDate.
Qed.

(** ** Clearing, then reading *)

Section AfterClear.

Variable header_error : string → string → string.
Variable API_KEY : string.

(** X20. Clearing forces a refetch: after a POST to [/cache/clear], a
    [/reading] request for any date, at any instant, is not served from
    the store; it sends one request upstream for its date, and its
    response is a MISS, or a 500 when the fetch fails, never a HIT. *)
Theorem clear_forces_refetch (upstream upstream2 : Url → FetchOutcome)
    (now later now2 later2 : Z) (req req2 : Request) (w : World) :
  pathname req = "/cache/clear" → method req = "POST" →
  method req2 ≠ "OPTIONS" → pathname req2 = "/reading" →
  ∃ resp2 w2,
    server_fetch header_error API_KEY upstream2 now2 later2 req2
      (server_fetch header_error API_KEY upstream now later req w).2
    = (Returned resp2, w2)
    ∧ outbound w2
      = outbound w ++ [reading_url API_KEY (resolved_date now2 req2)]
    ∧ obj_get "X-Cache" (headers resp2) ≠ Some "HIT"
    ∧ (status resp2 = 200 → obj_get "X-Cache" (headers resp2) = Some "MISS").
Proof.
  intros Hp Hm Hm2 Hp2.
  rewrite (server_fetch_clear _ _ _ _ _ _ _ Hp Hm). simpl.
  rewrite server_fetch_reading by done.
  destruct (reading_handler_cases header_error API_KEY upstream2 now2 later2
              (resolved_date now2 req2) (mkWorld ∅ (outbound w)))
    as [(e & He & _) | [_ [(r & _ & _ & ->) | (msg & -> & _)]]].
  - simpl in He. by rewrite lookup_empty in He.
  - eexists _, _. split; [done |]. unfold reading_answer.
    destruct (header_value _); by repeat split.
  - eexists _, _. split; [done |]. by repeat split.
Qed.

(** X21. In a process that started with an empty store, a successful
    answer to a [/reading] request (status 200, hit or miss) always
    carries, as [X-Cache-Date], the date the request resolved to, as
    the platform's [Headers] holds it: without its leading and trailing
    whitespace.  For a request whose date defaulted to today this is
    the date of today itself. *)
Theorem cache_date_echoes_request (steps : list Step)
    (upstream : Url → FetchOutcome) (now later : Z) (req : Request) :
  method req ≠ "OPTIONS" → pathname req = "/reading" →
  ∃ resp w',
    server_fetch header_error API_KEY upstream now later req
      (serve_all header_error API_KEY steps initial_world)
    = (Returned resp, w')
    ∧ (status resp = 200 →
       header_value (resolved_date now req)
       = Some (normalize_value (resolved_date now req))
       ∧ obj_get "X-Cache-Date" (headers resp)
         = Some (normalize_value (resolved_date now req))
       ∧ (resolved_date now req = getTodayDate now →
          obj_get "X-Cache-Date" (headers resp) = Some (getTodayDate now))).
Proof.
  intros Hm Hp. rewrite server_fetch_reading by done.
  assert (∀ x b resp,
             resp = reading_answer header_error x b (resolved_date now req) →
             status resp = 200 →
             header_value (resolved_date now req)
             = Some (normalize_value (resolved_date now req))
             ∧ obj_get "X-Cache-Date" (headers resp)
               = Some (normalize_value (resolved_date now req))
             ∧ (resolved_date now req = getTodayDate now →
                obj_get "X-Cache-Date" (headers resp) = Some (getTodayDate now)))
    as Hanswer.
  { intros x b resp -> Hst. unfold reading_answer in *.
    destruct (header_value (resolved_date now req)) as [v |] eqn:Hv;
      [| discriminate Hst].
    apply header_value_Some in Hv as Hn. subst v.
    split; [done |]. split; [done |].
    intros Htoday. rewrite Htoday in *. simpl.
    by rewrite normalize_value_getTodayDate. }
  destruct (reading_handler_cases header_error API_KEY upstream now later
              (resolved_date now req)
              (serve_all header_error API_KEY steps initial_world))
    as [(e & He & _ & ->) | [_ [(r & _ & _ & ->) | (msg & -> & _)]]].
  - eexists _, _. split; [done |].
    destruct (serve_all_cache header_error API_KEY steps [] initial_world)
      with (k := resolved_date now req) (e := e)
      as (_ & s & r & _ & _ & _ & ->); [| done |].
    { intros k' e'. simpl. by rewrite lookup_empty. }
    simpl. eapply Hanswer. reflexivity.
  - eexists _, _. split; [done |]. eapply Hanswer. reflexivity.
  - eexists _, _. split; [done |]. simpl. discriminate.
Qed.

End AfterClear.

Lemma clear_forces_refetch_witness :
  ∃ resp2 w2,
    server_fetch sample_header_error "k" upstream_200 20 30 sample_request
      (server_fetch sample_header_error "k" upstream_503 10 15 clear_request sample_world).2
    = (Returned resp2, w2)
    ∧ outbound w2 = [reading_url "k" "2025-06-15"]
    ∧ obj_get "X-Cache" (headers resp2) ≠ Some "HIT".
Proof.
  destruct (clear_forces_refetch sample_header_error "k" upstream_503 upstream_200 10 15 20 30
              clear_request sample_request sample_world)
    as (resp2 & w2 & Hrun & Hout & Hx & _);
    [reflexivity | reflexivity | discriminate | reflexivity |].
  exists resp2, w2. split; [exact Hrun |]. split; [exact Hout | exact Hx].
Defined.

Lemma cache_date_echoes_request_witness :
  ∃ resp w',
    server_fetch sample_header_error "k" upstream_down 4000 4500 sample_request
      (serve_all sample_header_error "k" sample_steps initial_world)
    = (Returned resp, w')
    ∧ (status resp = 200 →
       obj_get "X-Cache-Date" (headers resp) = Some "2025-06-15").
Proof.
  destruct (cache_date_echoes_request sample_header_error "k" sample_steps
              upstream_down 4000 4500 sample_request)
    as (resp & w' & Hrun & Hdate); [discriminate | reflexivity |].
  exists resp, w'. split; [exact Hrun |].
  intros Hst. destruct (Hdate Hst) as (_ & Hx & _). exact Hx.
Defined.

(** ** Two requests in flight *)

Section InFlight.

Variable header_error : string → string → string.
Variable API_KEY : string.

(** Run without interruption, the two parts are the [/reading] branch. *)
Lemma reading_handler_split upstream now later d w :
  reading_handler header_error API_KEY upstream now later d w
  = (let* p := reading_start header_error API_KEY upstream now d in
     reading_resume header_error later p) w.
Proof.
  unfold reading_handler, reading_start, reading_resume, try_catch, bind.
  destruct (getCachedReading_total now d w) as [[e |] ->].
  - rewrite new_Response_reading by done. unfold caught, ret.
    by destruct (header_value (date e)).
  - unfold fetchReading, bind, fetch, requested, throw, ret. simpl.
    destruct (upstream (reading_url API_KEY d)) as [r | t]; [| done].
    by destruct (up_ok r).
Qed.

(** The resumption of a request whose fetch came back with a success
    answer: the body is stored, then answered. *)
Lemma reading_resume_success later d r w :
  up_ok r = true →
  reading_resume header_error later (Awaiting d (Responded r)) w
  = (Returned (reading_answer header_error "MISS" (up_text r) d),
     mkWorld (<[d := {| data := up_text r; timestamp := later; date := d |}]>
                (cache w))
             (outbound w)).
Proof.
  intros Hok. unfold reading_resume, try_catch, bind. rewrite Hok.
  cbv beta iota zeta delta [negb ret setCachedReading cache_set].
  unfold reading_answer. rewrite new_Response_reading by done.
  by destruct (header_value d).
Qed.

(** X22. Two requests for the same date that both reach the lookup
    before either fetch has come back both miss (the second even when
    the first evicted an expired entry) and both go upstream; when
    they resume, each stores its body and then answers: with its own
    body as a MISS when the platform takes the date as a header value,
    with the 500 of the failed construction when it does not.  The
    store ends with the body of the one that resumed last, stamped with
    its instant: the earlier write is overwritten, whichever request
    started first. *)
Theorem concurrent_misses_last_write_wins
    (upstreamA upstreamB : Url → FetchOutcome)
    (nowA nowB laterA laterB : Z) (d : string) (w : World)
    (rA rB : UpstreamResponse) :
  (getCachedReading nowA d w).1 = Returned None →
  upstreamA (reading_url API_KEY d) = Responded rA → up_ok rA = true →
  upstreamB (reading_url API_KEY d) = Responded rB → up_ok rB = true →
  ∃ pA wA pB wB respA respB,
    reading_start header_error API_KEY upstreamA nowA d w = (Returned pA, wA)
    ∧ reading_start header_error API_KEY upstreamB nowB d wA = (Returned pB, wB)
    ∧ outbound wB
      = outbound w ++ [reading_url API_KEY d; reading_url API_KEY d]
    ∧ (∃ w1 w2,
         reading_resume header_error laterA pA wB = (Returned respA, w1)
         ∧ reading_resume header_error laterB pB w1 = (Returned respB, w2)
         ∧ cache w2
           = <[d := {| data := up_text rB; timestamp := laterB; date := d |}]>
               (cache w))
    ∧ (∃ w1 w2,
         reading_resume header_error laterB pB wB = (Returned respB, w1)
         ∧ reading_resume header_error laterA pA w1 = (Returned respA, w2)
         ∧ cache w2
           = <[d := {| data := up_text rA; timestamp := laterA; date := d |}]>
               (cache w))
    ∧ (∀ v, header_value d = Some v →
         respA = miss_response v (up_text rA)
         ∧ respB = miss_response v (up_text rB)
         ∧ v = normalize_value d)
    ∧ (header_value d = None →
         respA = error_response (header_error "X-Cache-Date" d)
         ∧ respB = error_response (header_error "X-Cache-Date" d)).
Proof.
  intros Hmiss HA HokA HB HokB.
  unfold reading_start, bind.
  rewrite (getCachedReading_miss _ _ _ Hmiss).
  eexists _, _. eexists _, _.
  exists (reading_answer header_error "MISS" (up_text rA) d),
         (reading_answer header_error "MISS" (up_text rB) d).
  split; [reflexivity |].
  rewrite getCachedReading_absent by (simpl; apply lookup_delete_eq).
  split; [reflexivity |].
  split; [simpl; by rewrite <- app_assoc |].
  rewrite HA, HB.
  split; [| split; [| split]].
  - eexists _, _. rewrite !reading_resume_success by done.
    split; [reflexivity |]. split; [reflexivity |]. simpl.
    by rewrite insert_insert_eq, insert_delete_eq.
  - eexists _, _. rewrite !reading_resume_success by done.
    split; [reflexivity |]. split; [reflexivity |]. simpl.
    by rewrite insert_insert_eq, insert_delete_eq.
  - intros v Hv.
    destruct (reading_answer_accepted header_error "MISS" (up_text rA) _ _ Hv)
      as [-> _].
    destruct (reading_answer_accepted header_error "MISS" (up_text rB) _ _ Hv)
      as [-> ->].
    done.
  - intros Hv. by rewrite !reading_answer_refused.
Qed.

End InFlight.

Lemma concurrent_misses_last_write_wins_witness :
  ∃ pA wA pB wB,
    reading_start sample_header_error "k" upstream_200 3600001 "2025-06-15"
      sample_world
    = (Returned pA, wA)
    ∧ reading_start sample_header_error "k" upstream_200 3600002 "2025-06-15" wA
      = (Returned pB, wB)
    ∧ outbound wB
      = [reading_url "k" "2025-06-15"; reading_url "k" "2025-06-15"]
    ∧ ∃ w1 w2,
        reading_resume sample_header_error 3600500 pA wB
        = (Returned (miss_response "2025-06-15" "<html>reading</html>"), w1)
        ∧ reading_resume sample_header_error 3600400 pB w1
          = (Returned (miss_response "2025-06-15" "<html>reading</html>"), w2)
        ∧ cache w2 !! "2025-06-15"
          = Some {| data := "<html>reading</html>"; timestamp := 3600400;
                    date := "2025-06-15" |}.
Proof.
  destruct (concurrent_misses_last_write_wins sample_header_error "k"
              upstream_200 upstream_200
              3600001 3600002 3600500 3600400 "2025-06-15" sample_world
              reading_200 reading_200)
    as (pA & wA & pB & wB & respA & respB & HA & HB & Hout
        & (w1 & w2 & H1 & H2 & Hc) & _ & Hok & _);
    [reflexivity | reflexivity | reflexivity | reflexivity | reflexivity |].
  destruct (Hok "2025-06-15") as (-> & -> & _); [reflexivity |].
  exists pA, wA, pB, wB. split; [exact HA |]. split; [exact HB |].
  split; [exact Hout |].
  exists w1, w2. split; [exact H1 |]. split; [exact H2 |].
  rewrite Hc. apply lookup_insert_eq.
Defined.
